(** * metacom: packet codec and channel coordinator

    A shallow embedding of [lib/protocol.js] (the packet codec) and of
    [lib/channel.js] (sessions, dispatch, RPC invocation, streams and error
    construction), with the properties of the protocol specification stated
    over it. *)

From stdpp Require Import base strings pretty list gmap.
From Stdlib Require Import ZArith Ascii String Lia.

Set Warnings "-register-all".

Open Scope string_scope.
Open Scope Z_scope.

(** ** JavaScript values

    Numbers are represented by their integer value ([VNum]) or as [VNaN];
    the embedding of a number is exact on the safe integers, which is where
    the codec and the channel use them (ids, versions, sizes, status codes).
    Strings are sequences of 8-bit code units.  An object is the list of its
    own enumerable properties in property order; the objects met here come
    from JSON text or from the literals of the source, whose keys are
    distinct and are never array indices. *)
Module JS.

Inductive value :=
  | VUndef
  | VNull
  | VBool (b : bool)
  | VNum (z : Z)
  | VNaN
  | VStr (s : string)
  | VObj (fields : list (string * value))
  | VArr (items : list value).

(** Abrupt completion: the [TypeError] the language raises (a call of
    [undefined], a property of [null]), or the rejection of an awaited
    promise passed on by an async method. *)
Inductive exn := TypeError | Rejection.

(** Outcome of a call.  [Inherited name] records that the property looked up
    in a handler table was not an own property but the function [name] that
    every object inherits from [Object.prototype]: the source calls that
    function and goes on with what it returns ([deserialize] then answers
    an object whose [type] is [name]) or raises.  What the inherited
    function does is not modelled; the outcome says only that it was
    called, and nothing is proved of such a call beyond that. *)
Inductive completion (A : Type) :=
  | Normal (a : A)
  | Throw (e : exn)
  | Inherited (name : string).
Arguments Normal {A} a.
Arguments Throw {A} e.
Arguments Inherited {A} name.

#[global] Instance completion_ret : MRet completion := fun A a => Normal a.

#[global] Instance completion_bind : MBind completion := fun A B k c =>
  match c with
  | Normal a => k a
  | Throw e => Throw e
  | Inherited n => Inherited n
  end.

(** ToBoolean *)
Definition truthy (v : value) : bool :=
  match v with
  | VUndef | VNull | VNaN => false
  | VBool b => b
  | VNum z => negb (z =? 0)
  | VStr s => negb (String.eqb s EmptyString)
  | VObj _ | VArr _ => true
  end.

Definition nullish (v : value) : bool :=
  match v with VUndef | VNull => true | _ => false end.

(** [Number.isSafeInteger] *)
Definition MAX_SAFE_INTEGER : Z := 2 ^ 53 - 1.

Definition isSafeInteger (v : value) : bool :=
  match v with
  | VNum z => (- MAX_SAFE_INTEGER <=? z) && (z <=? MAX_SAFE_INTEGER)
  | _ => false
  end.

Definition is_string (v : value) : bool :=
  match v with VStr _ => true | _ => false end.

(** An object as opposed to a primitive value: what [new Proxy] accepts as
    its target. *)
Definition is_object (v : value) : bool :=
  match v with VObj _ | VArr _ => true | _ => false end.

(** A parameter with a default, [(x = d) => ...]: the default stands in for
    an argument that is [undefined] or was not passed. *)
Definition default_arg (d v : value) : value :=
  match v with VUndef => d | _ => v end.

(** [Array.prototype.join] with a one-character-or-more separator. *)
Definition join (sep : string) (parts : list string) : string :=
  match parts with
  | [] => EmptyString
  | p :: ps => fold_left (fun acc q => acc +:+ sep +:+ q) ps p
  end.

(** ToString, as a template literal applies it. *)
Fixpoint to_string (v : value) : string :=
  match v with
  | VUndef => "undefined"
  | VNull => "null"
  | VBool true => "true"
  | VBool false => "false"
  | VNum z => pretty z
  | VNaN => "NaN"
  | VStr s => s
  | VObj _ => "[object Object]"
  | VArr items =>
      join "," (List.map (fun x => if nullish x then EmptyString else to_string x) items)
  end.

Fixpoint chars (s : string) : list value :=
  match s with
  | EmptyString => []
  | String c r => VStr (String c EmptyString) :: chars r
  end.

(** Own enumerable string-keyed properties, in property order. *)
Definition own_fields (v : value) : list (string * value) :=
  match v with
  | VObj fields => fields
  | VArr items => imap (fun i x => (pretty (Z.of_nat i), x)) items
  | VStr s => imap (fun i x => (pretty (Z.of_nat i), x)) (chars s)
  | _ => []
  end.

Fixpoint assoc (k : string) (fields : list (string * value)) : option value :=
  match fields with
  | [] => None
  | (k', v) :: rest => if String.eqb k' k then Some v else assoc k rest
  end.

(** [Object.keys(v)]; raises on [null] and [undefined]. *)
Definition keys (v : value) : completion (list string) :=
  if nullish v then Throw TypeError else Normal (List.map fst (own_fields v)).

(** [v.k] and [v[k]] for a name [k] that no prototype defines (all the names
    the source reads are of that sort); raises on [null] and [undefined]. *)
Definition get (v : value) (k : string) : completion value :=
  if nullish v then Throw TypeError
  else Normal (default VUndef (assoc k (own_fields v))).

(** [v?.k] *)
Definition get_opt (v : value) (k : string) : value :=
  default VUndef (assoc k (own_fields v)).

(** The rest object of [({k, ...data}) => ...]. *)
Definition rest (k : string) (v : value) : value :=
  VObj (List.filter (fun kv => negb (String.eqb (fst kv) k)) (own_fields v)).

(** [s.split(sep)] for a one-character separator. *)
Fixpoint split (sep : ascii) (s : string) : list string :=
  match s with
  | EmptyString => [EmptyString]
  | String c r =>
      if Ascii.eqb c sep then EmptyString :: split sep r
      else match split sep r with
           | h :: t => String c h :: t
           | [] => [String c EmptyString]
           end
  end.

(** *** parseInt *)

Definition digit_val (radix : Z) (c : ascii) : option Z :=
  let n := Z.of_N (N_of_ascii c) in
  let d := if (48 <=? n) && (n <=? 57) then Some (n - 48)
           else if (97 <=? n) && (n <=? 122) then Some (n - 87)
           else if (65 <=? n) && (n <=? 90) then Some (n - 55)
           else None in
  match d with
  | Some x => if x <? radix then Some x else None
  | None => None
  end.

(** Value of the longest prefix of digits; [acc] is [None] until a digit has
    been read. *)
Fixpoint digits_go (radix : Z) (acc : option Z) (s : string) : option Z :=
  match s with
  | EmptyString => acc
  | String c r =>
      match digit_val radix c with
      | Some d => digits_go radix (Some (default 0 acc * radix + d)) r
      | None => acc
      end
  end.

Definition is_digit (c : ascii) : bool :=
  match digit_val 10 c with Some _ => true | None => false end.

Fixpoint all_digits (s : string) : bool :=
  match s with
  | EmptyString => true
  | String c r => is_digit c && all_digits r
  end.

(** White space and line terminators among the 8-bit code units. *)
Definition is_white (c : ascii) : bool :=
  let n := N_of_ascii c in
  ((9 <=? n) && (n <=? 13) || (n =? 32) || (n =? 160))%N.

Fixpoint skip_white (s : string) : string :=
  match s with
  | String c r => if is_white c then skip_white r else s
  | EmptyString => s
  end.

(** An optional sign: is it ["-"], and what follows it. *)
Definition strip_sign (s : string) : bool * string :=
  match s with
  | String c r =>
      if Ascii.eqb c "-" then (true, r)
      else if Ascii.eqb c "+" then (false, r)
      else (false, s)
  | EmptyString => (false, s)
  end.

(** An optional ["0x"] or ["0X"]: the radix, and what follows the prefix. *)
Definition strip_hex (s : string) : Z * string :=
  match s with
  | String c (String x r) =>
      if Ascii.eqb c "0" && (Ascii.eqb x "x" || Ascii.eqb x "X") then (16, r)
      else (10, s)
  | _ => (10, s)
  end.

(** [parseInt(s)] without a radix argument. *)
Definition parseInt (s : string) : value :=
  let '(neg, s1) := strip_sign (skip_white s) in
  let '(radix, s2) := strip_hex s1 in
  match digits_go radix None s2 with
  | None => VNaN
  | Some n => VNum (if neg then - n else n)
  end.

End JS.

(** ** The packet codec ([lib/protocol.js]) *)
Module Protocol.
Import JS.

(** A member looked up in one of the two handler tables. *)
Inductive member (A : Type) :=
  | Own (f : A)
  | Proto (name : string)
  | Missing.
Arguments Own {A} f.
Arguments Proto {A} name.
Arguments Missing {A}.

(** The function-valued names every object inherits, and [__proto__]. *)
Definition object_prototype : list string :=
  [ "constructor"; "hasOwnProperty"; "isPrototypeOf"; "propertyIsEnumerable";
    "toLocaleString"; "toString"; "valueOf"; "__defineGetter__";
    "__defineSetter__"; "__lookupGetter__"; "__lookupSetter__"; "__proto__" ].

Definition table {A} (own : list (string * A)) (name : string) : member A :=
  match List.find (fun e => String.eqb (fst e) name) own with
  | Some e => Own (snd e)
  | None =>
      if List.existsb (String.eqb name) object_prototype then Proto name
      else Missing
  end.

(** [table[name](arg)]; [missing] is what a lookup that finds nothing leads
    to: a [TypeError] for a plain call, [undefined] for [?.()].  A name that
    [Object.prototype] defines is found there: [__proto__] is an object,
    not a function, and calling it raises a [TypeError]; every other one is
    a function, and is called. *)
Definition call_member {A} (m : member (value -> completion A)) (arg : value)
    (missing : completion A) : completion A :=
  match m with
  | Own f => f arg
  | Proto name =>
      if String.eqb name "__proto__" then Throw TypeError else Inherited name
  | Missing => missing
  end.

(** The routing key of a call: [`${iface}${ver ? `.${ver}` : ''}/${method}`]. *)
Definition call_key (iface ver method : value) : string :=
  to_string iface +:+ (if truthy ver then "." +:+ to_string ver else EmptyString)
    +:+ "/" +:+ to_string method.

(** [`${iface}/${eventName}`] *)
Definition event_key (iface eventName : value) : string :=
  to_string iface +:+ "/" +:+ to_string eventName.

Definition serializer_call (d : value) : completion value :=
  callId ← get d "callId"; iface ← get d "iface"; ver ← get d "ver";
  method ← get d "method"; args ← get d "args";
  mret (VObj [("call", callId); (call_key iface ver method, args)]).

Definition serializer_callback (d : value) : completion value :=
  callId ← get d "callId"; result ← get d "result";
  mret (VObj [("callback", callId); ("result", result)]).

Definition serializer_event (d : value) : completion value :=
  eventId ← get d "eventId"; iface ← get d "iface";
  eventName ← get d "eventName"; args ← get d "args";
  mret (VObj [("event", eventId); (event_key iface eventName, args)]).

Definition serializer_stream (d : value) : completion value :=
  streamId ← get d "streamId"; name ← get d "name"; size ← get d "size";
  status ← get d "status";
  mret (VObj [("stream", streamId); ("name", name); ("size", size);
              ("status", status)]).

Definition serializer_error (d : value) : completion value :=
  callId ← get d "callId"; message ← get d "message"; code ← get d "code";
  mret (VObj [("callback", callId);
              ("error", VObj [("message", message); ("code", code)])]).

Definition serializer : string -> member (value -> completion value) :=
  table [ ("call", serializer_call); ("callback", serializer_callback);
          ("event", serializer_event); ("stream", serializer_stream);
          ("error", serializer_error) ].

(** [serialize = (type, data) => serializer[type]?.(data) ?? null] *)
Definition serialize (type : string) (d : value) : completion value :=
  r ← call_member (serializer type) d (Normal VUndef);
  mret (if nullish r then VNull else r).

(** The descriptors the five decoders build, one shape per kind. *)
Inductive data :=
  | CallData (callId iface method ver args : value)
  | CallbackData (callId result : value)
  | EventData (eventId iface eventName args : value)
  | StreamData (streamId name size status : value)
  | ErrorData (callId message code : value).

(** A destructured array element: a string, or [undefined] past the end. *)
Definition element (parts : list string) (i : nat) : value :=
  match parts !! i with
  | Some s => VStr s
  | None => VUndef
  end.

(** [x?.split(sep) ?? []] *)
Definition split_opt (sep : ascii) (x : value) : list string :=
  match x with
  | VStr s => split sep s
  | _ => []
  end.

(** [Object.keys(data).at(0)] *)
Definition first_key (d : value) : completion value :=
  ks ← keys d; mret (element ks 0).

(** [ver && parseInt(ver)] for a destructured array element *)
Definition parse_ver (ver : value) : value :=
  if truthy ver then parseInt (to_string ver) else ver.

Definition deserializer_call (packet : value) : completion data :=
  call ← get packet "call";
  let d := rest "call" packet in
  target ← first_key d;
  let parts := split_opt "/" target in
  let service := element parts 0 in
  let method := element parts 1 in
  let iparts := split_opt "." service in
  let iface := element iparts 0 in
  let ver := element iparts 1 in
  args ← get d (to_string target);
  mret (CallData call iface method (parse_ver ver) args).

Definition deserializer_callback (packet : value) : completion data :=
  callback ← get packet "callback"; result ← get packet "result";
  mret (CallbackData callback result).

Definition deserializer_event (packet : value) : completion data :=
  event ← get packet "event";
  let d := rest "event" packet in
  target ← first_key d;
  let parts := split_opt "/" target in
  let iface := element parts 0 in
  let eventName := element parts 1 in
  args ← get d (to_string target);
  mret (EventData event iface eventName args).

Definition deserializer_stream (packet : value) : completion data :=
  stream ← get packet "stream"; name ← get packet "name";
  size ← get packet "size"; status ← get packet "status";
  mret (StreamData stream name size status).

Definition deserializer_error (packet : value) : completion data :=
  callback ← get packet "callback"; error ← get packet "error";
  mret (ErrorData callback (get_opt error "message") (get_opt error "code")).

Definition deserializer : string -> member (value -> completion data) :=
  table [ ("call", deserializer_call); ("callback", deserializer_callback);
          ("event", deserializer_event); ("stream", deserializer_stream);
          ("error", deserializer_error) ].

(** [deserialize]: [None] is the [null] result, [Some (type, data)] the
    object [{ type, data }]. *)
Definition deserialize (packet : value) : completion (option (string * data)) :=
  error ← get packet "error";
  type ← (if truthy error then mret (VStr "error") else first_key packet);
  if negb (truthy type) then mret None
  else
    d ← call_member (deserializer (to_string type)) packet (Throw TypeError);
    mret (Some (to_string type, d)).

(** The type [deserialize] computes for a packet that is not [null]:
    [packet.error ? 'error' : Object.keys(packet).at(0)]. *)
Definition packet_type (packet : value) : value :=
  if truthy (get_opt packet "error") then VStr "error"
  else element (List.map fst (own_fields packet)) 0.

(** *** Descriptors as the specification speaks of them *)

Inductive kind := KCall | KCallback | KEvent | KStream | KError.

Definition kind_name (K : kind) : string :=
  match K with
  | KCall => "call"
  | KCallback => "callback"
  | KEvent => "event"
  | KStream => "stream"
  | KError => "error"
  end.

(** The field set of kind [K] that an encoder reads off a descriptor
    object [o]; a field the object lacks is [undefined]. *)
Definition fields_of (K : kind) (o : value) : data :=
  match K with
  | KCall =>
      CallData (get_opt o "callId") (get_opt o "iface") (get_opt o "method")
        (get_opt o "ver") (get_opt o "args")
  | KCallback => CallbackData (get_opt o "callId") (get_opt o "result")
  | KEvent =>
      EventData (get_opt o "eventId") (get_opt o "iface")
        (get_opt o "eventName") (get_opt o "args")
  | KStream =>
      StreamData (get_opt o "streamId") (get_opt o "name") (get_opt o "size")
        (get_opt o "status")
  | KError => ErrorData (get_opt o "callId") (get_opt o "message") (get_opt o "code")
  end.

(** [decode(encode(K, F))] *)
Definition roundtrip (K : kind) (o : value) : completion (option (string * data)) :=
  w ← serialize (kind_name K) o; deserialize w.

Fixpoint no_char (c : ascii) (s : string) : bool :=
  match s with
  | EmptyString => true
  | String c' r => negb (Ascii.eqb c' c) && no_char c r
  end.

(** A version that travels: absent, or a safe integer other than zero. *)
Definition valid_version (v : value) : bool :=
  match v with
  | VUndef => true
  | VNum z => negb (z =? 0) && isSafeInteger v
  | _ => false
  end.

(** Valid field sets: the names that make up a routing key are strings free
    of the separators of the key (["/"], and ["."] in an interface name). *)
Definition valid (d : data) : bool :=
  match d with
  | CallData _ (VStr i) (VStr m) v _ =>
      no_char "/" i && no_char "." i && no_char "/" m && valid_version v
  | CallData _ _ _ _ _ => false
  | EventData _ (VStr i) (VStr e) _ => no_char "/" i && no_char "/" e
  | EventData _ _ _ _ => false
  | _ => true
  end.

(** The arguments of the call of the test suite, and that call with a given
    version. *)
Definition credentials : value :=
  VObj [("email", VStr "test@gmail.com"); ("password", VStr "secret")].

Definition sample_call (ver : value) : value :=
  VObj [("callId", VNum 1); ("iface", VStr "auth"); ("ver", ver);
        ("method", VStr "signIn"); ("args", credentials)].

End Protocol.


(** ** The channel coordinator ([lib/channel.js]) *)
Module Channel.
Import JS Protocol.

(** An [Error] object whose [code] and [httpCode] are integers or absent.
    The errors the channel creates itself have neither.  [rpc] passes on the
    [code] of whatever a procedure throws or returns; an error whose code is
    not a number (a string such as ['ENOENT']) is outside this model. *)
Record js_error := {
  err_message : string;
  err_stack : string;
  err_code : option Z;
  err_httpCode : option Z;
}.

(** A value that may be an [Error] instance: what a procedure returns. *)
Inductive jsval :=
  | Plain (v : value)
  | ErrorObj (e : js_error).

(** What a [throw] or a rejected promise carries: an [Error] object, or
    [null]/[undefined]. *)
Inductive thrown :=
  | ThrownError (e : js_error)
  | ThrownNullish.

(** How an awaited promise settles. *)
Inductive outcome (A : Type) :=
  | Fulfilled (a : A)
  | Rejected (t : thrown).
Arguments Fulfilled {A} a.
Arguments Rejected {A} t.

(** [class Session]: [oid] is the identity of the object; [state] is the
    data behind the proxy. *)
Record Session := {
  oid : nat;
  token : string;
  state : value;
}.

(** [class Context], without the generated uuid. *)
Record Context := {
  ctx_session : option Session;
  ctx_state : value;
  accountId : value;
}.

(** A procedure of the application's method registry.  The channel reads
    its [access] level; [enter], [invoke] and [leave] are calls the channel
    makes, recorded in the trace, and the promises of the first two are
    settled from outside. *)
Record procedure := {
  proc_name : string;
  access : string;
}.

(** Modelled from the spec: the inbound handle of the stream engine
    ([lib/streams.js]: [MetaReadable]), as the record of what the channel
    did with it. *)
Inductive stream_op :=
  | Push (payload : string)
  | Close
  | Terminate.

Record readable := {
  r_streamId : value;
  r_name : value;
  r_size : value;
  r_ops : list stream_op;
}.

(** What the channel does to its collaborators, in order. *)
Inductive event :=
  | Send (packet : value) (status : option Z)
  | ConsoleError (line : string)
  | ConsoleLog (line : string)
  | GetMethod (iface ver method : value)
  | Enter (p : procedure)
  | Invoke (p : procedure) (context : Context) (args : value)
  | Leave (p : procedure)
  | ReadSession (token : string).

(** The rest of an async method, suspended at an [await]. *)
Inductive task :=
  | AwaitEnter (p : procedure) (context : Context)
      (callId iface method args : value)
  | AwaitInvoke (p : procedure) (callId iface method : value)
  | AwaitClose (streamId : value)
  | AwaitTerminate (streamId : value)
  | AwaitReadSession (token : string).

(** [Map] keys are compared by SameValueZero; two objects are the same key
    only if they are the same object, which two parsed packets never are. *)
Definition same_value_zero (a b : value) : bool :=
  match a, b with
  | VUndef, VUndef | VNull, VNull | VNaN, VNaN => true
  | VBool x, VBool y => Bool.eqb x y
  | VNum x, VNum y => x =? y
  | VStr x, VStr y => String.eqb x y
  | _, _ => false
  end.

(** [this.streams]: entries in insertion order. *)
Definition stream_table := list (value * readable).

Fixpoint table_get (k : value) (t : stream_table) : option readable :=
  match t with
  | [] => None
  | (k', r) :: rest => if same_value_zero k' k then Some r else table_get k rest
  end.

Fixpoint table_set (k : value) (r : readable) (t : stream_table) : stream_table :=
  match t with
  | [] => [(k, r)]
  | (k', r') :: rest =>
      if same_value_zero k' k then (k', r) :: rest
      else (k', r') :: table_set k r rest
  end.

Definition table_delete (k : value) (t : stream_table) : stream_table :=
  List.filter (fun e => negb (same_value_zero (fst e) k)) t.

(** The module-level [sessions] map, shared by all channels, and the
    allocator of session objects. *)
Record registry := {
  sessions : gmap string Session;
  next_oid : nat;
}.

(** One channel: the fields of [class Channel] the coordinator reads and
    writes; [cookie_token] is [parseCookies(req.headers.cookie).token]. *)
Record channel := {
  session : option Session;
  eventId : Z;
  streamId : Z;
  streams : stream_table;
  ip : string;
  req_method : string;
  req_url : string;
  cookie_token : option string;
  trace : list event;
}.

(** What a method of a channel can touch: the shared registry and the
    channel itself. *)
Record world := {
  reg : registry;
  chan : channel;
}.

(** Methods: the world is passed along, and a call completes normally or
    abruptly. *)
Definition M (A : Type) : Type := world -> completion A * world.

#[global] Instance M_ret : MRet M := fun A a st => (Normal a, st).

#[global] Instance M_bind : MBind M := fun A B k m st =>
  match m st with
  | (Normal a, st') => k a st'
  | (Throw e, st') => (Throw e, st')
  | (Inherited n, st') => (Inherited n, st')
  end.

Definition lift {A} (c : completion A) : M A := fun st => (c, st).

Definition throw {A} (e : exn) : M A := fun st => (Throw e, st).

Definition read {A} (f : world -> A) : M A := fun st => (Normal (f st), st).

Definition set_chan (f : channel -> channel) : M unit := fun st =>
  (Normal tt, {| reg := reg st; chan := f (chan st) |}).

Definition set_sessions (f : gmap string Session -> gmap string Session) : M unit :=
  fun st =>
    (Normal tt,
     {| reg := {| sessions := f (sessions (reg st));
                  next_oid := next_oid (reg st) |};
        chan := chan st |}).

Definition with_session (s : option Session) (c : channel) : channel :=
  {| session := s; eventId := eventId c; streamId := streamId c;
     streams := streams c; ip := ip c; req_method := req_method c;
     req_url := req_url c; cookie_token := cookie_token c; trace := trace c |}.

Definition with_streams (t : stream_table) (c : channel) : channel :=
  {| session := session c; eventId := eventId c; streamId := streamId c;
     streams := t; ip := ip c; req_method := req_method c;
     req_url := req_url c; cookie_token := cookie_token c; trace := trace c |}.

Definition with_trace (t : list event) (c : channel) : channel :=
  {| session := session c; eventId := eventId c; streamId := streamId c;
     streams := streams c; ip := ip c; req_method := req_method c;
     req_url := req_url c; cookie_token := cookie_token c; trace := t |}.

Definition emit (e : event) : M unit :=
  set_chan (fun c => with_trace (trace c ++ [e]) c).

(** [createProxy(data, save)]: [new Proxy(data, ...)] raises a [TypeError]
    unless [data] is an object.  The proxy passes every read and write on
    to [data], so it is represented by [data] itself. *)
Definition createProxy (data : value) : M value :=
  if is_object data then mret data else throw TypeError.

(** A new object of [class Session], with an identity of its own. *)
Definition alloc_Session (token : string) (state : value) : M Session := fun st =>
  (Normal {| oid := next_oid (reg st); token := token; state := state |},
   {| reg := {| sessions := sessions (reg st);
                next_oid := S (next_oid (reg st)) |};
      chan := chan st |}).

(** [new Session(token, channel, data)] *)
Definition new_Session (token : string) (data : value) : M Session :=
  state ← createProxy data;
  alloc_Session token state.

(** *** [class Client]: session control *)

(** [initializeSession(token, data = {})] *)
Definition initializeSession (token : string) (data : value) : M bool :=
  let data := default_arg (VObj []) data in
  current ← read (fun st => session (chan st));
  _ ← match current with
      | Some s => set_sessions (delete (Channel.token s))
      | None => mret tt
      end;
  s ← new_Session token data;
  _ ← set_chan (with_session (Some s));
  _ ← set_sessions (insert token s);
  mret true.

Definition finalizeSession (token : string) : M bool :=
  found ← read (fun st => sessions (reg st) !! token);
  match found with
  | None => mret false
  | Some _ =>
      current ← read (fun st => session (chan st));
      match current with
      | None => mret false
      | Some s =>
          _ ← set_sessions (delete (Channel.token s));
          _ ← set_chan (with_session None);
          mret true
      end
  end.

(** The private [#channel] of a client is set once, in the constructor, so
    the test on it in [restoreSession] never fails. *)
Definition restoreSession (token : string) : M bool :=
  found ← read (fun st => sessions (reg st) !! token);
  match found with
  | None => mret false
  | Some s => _ ← set_chan (with_session (Some s)); mret true
  end.

(** *** [class Channel] *)
Section Methods.

(** Collaborators outside the repository or outside [lib/channel.js]:
    [http.STATUS_CODES] of Node, [metautil.jsonParse] ([null] when the text
    is not JSON), the method registry of the application, the chunk codec
    of [lib/streams.js] (it raises on a malformed frame), and the stack
    text the runtime attaches to [new Error(message)]. *)
Variable STATUS_CODES : Z -> option string.
Variable jsonParse : string -> value.
Variable getMethod : value -> value -> value -> option procedure.
Variable Chunk_decode : string -> js_error + (Z * string).
Variable error_stack : string -> string.

Definition new_Error (msg : string) : js_error :=
  {| err_message := msg; err_stack := error_stack msg; err_code := None;
     err_httpCode := None |}.

Definition tab : string := String (ascii_of_nat 9) EmptyString.

(** The first of the two codes that is truthy, as [a || b] picks it. *)
Definition or_code (a : option Z) (b : Z) : Z :=
  match a with
  | Some z => if z =? 0 then b else z
  | None => b
  end.

(** [status || 'Unknown error'] *)
Definition status_phrase (status : option string) : string :=
  match status with
  | Some s => if String.eqb s EmptyString then "Unknown error" else s
  | None => "Unknown error"
  end.

(** [error(code = 500, { callId, error = null, httpCode = null } = {})] *)
Definition error (code : option Z) (callId : value) (err : option js_error)
    (httpCode : option Z) : M unit :=
  let code := default 500 code in
  let httpCode := or_code httpCode (or_code (err ≫= err_httpCode) code) in
  let status := STATUS_CODES httpCode in
  let pass := (httpCode <? 500) || (599 <? httpCode) in
  let message :=
    match err with
    | Some e => if pass then err_message e else status_phrase status
    | None => status_phrase status
    end in
  let detail :=
    match err with
    | Some e => err_stack e
    | None => default "undefined" status
    end in
  let reason := pretty httpCode +:+ tab +:+ pretty code +:+ tab +:+ detail in
  c ← read chan;
  _ ← emit (ConsoleError
              (ip c +:+ tab +:+ req_method c +:+ tab +:+ req_url c +:+ tab
                 +:+ reason));
  packet ← lift (serialize "error"
                   (VObj [("callId", callId); ("message", VStr message);
                          ("code", VNum code)]));
  emit (Send packet (Some httpCode)).

(** [handler(data)] in [message]: the handler is taken off the channel and
    called as a plain function, so inside it [this] is [undefined] (the body
    of a class is strict code) and its first [this. ...] raises a
    [TypeError], before anything is done.  [callHandler] is a plain method:
    the error leaves the call.  [streamHandler] is [async]: it returns a
    promise rejected with that error, which is the result here.  The
    channel has no handler for the other types. *)
Definition detached_handler (type : string) (d : data) : M (option exn) :=
  if String.eqb type "call" then throw TypeError
  else if String.eqb type "stream" then mret (Some TypeError)
  else mret None.

(** [message(msg)].  The result is the reason of the rejected promise that
    the call leaves behind unobserved, if there is one. *)
Definition message (msg : string) : M (option exn) :=
  if String.eqb msg "{}" then
    _ ← emit (Send (VStr "{}") None); mret None
  else
    let packet := jsonParse msg in
    if negb (truthy packet) then
      _ ← error (Some 500) VUndef (Some (new_Error "JSON parsing error")) None;
      mret None
    else
      decoded ← lift (deserialize packet);
      match decoded with
      | None => throw TypeError
      | Some (type, d) =>
          if String.eqb type EmptyString then
            _ ← error (Some 500) VUndef
                  (Some (new_Error "Packet structure error")) None;
            mret None
          else detached_handler type d
      end.

(** [binary(data)] *)
Definition binary (data : string) : M unit :=
  match Chunk_decode data with
  | inr (streamId, payload) =>
      upstream ← read (fun w => table_get (VNum streamId) (streams (chan w)));
      match upstream with
      | Some r =>
          let r' := {| r_streamId := r_streamId r; r_name := r_name r;
                       r_size := r_size r; r_ops := r_ops r ++ [Push payload] |} in
          set_chan (fun c => with_streams (table_set (VNum streamId) r' (streams c)) c)
      | None =>
          error (Some 400) (VNum streamId)
            (Some (new_Error ("Stream " +:+ pretty streamId
                                +:+ " is not initialized"))) None
      end
  | inl err => error (Some 400) (VNum 0) (Some err) None
  end.

(** [resumeCookieSession()], up to its [await]. *)
Definition resumeCookieSession : M (option task) :=
  cookie ← read (fun w => cookie_token (chan w));
  match cookie with
  | None => mret None
  | Some token =>
      if String.eqb token EmptyString then mret None
      else
        restored ← restoreSession token;
        if restored : bool then mret None
        else
          _ ← emit (ReadSession token);
          mret (Some (AwaitReadSession token))
  end.

(** The rest of [resumeCookieSession] once [readSession] has settled. *)
Definition resumeCookieSession_read (token : string) (o : outcome value) : M unit :=
  match o with
  | Fulfilled data =>
      if truthy data then _ ← initializeSession token data; mret tt
      else mret tt
  | Rejected _ => throw Rejection
  end.

(** [rpc(callId, iface, ver, method, args)], up to [await proc.enter()]. *)
Definition rpc (callId iface ver method args : value) : M (option task) :=
  _ ← emit (GetMethod iface ver method);
  match getMethod iface ver method with
  | None => _ ← error (Some 404) callId None None; mret None
  | Some proc =>
      s ← read (fun w => session (chan w));
      let context :=
        {| ctx_session := s; ctx_state := VObj []; accountId := VUndef |} in
      if negb (bool_decide (is_Some s)) && negb (String.eqb (access proc) "public")
      then _ ← error (Some 403) callId None None; mret None
      else
        _ ← emit (Enter proc);
        mret (Some (AwaitEnter proc context callId iface method args))
  end.

(** The rest of [rpc] once [proc.enter()] has settled, up to
    [await proc.invoke(context, args)]. *)
Definition rpc_entered (proc : procedure) (context : Context)
    (callId iface method args : value) (o : outcome unit) : M (option task) :=
  match o with
  | Rejected _ => _ ← error (Some 503) callId None None; mret None
  | Fulfilled _ =>
      s ← read (fun w => session (chan w));
      let context' :=
        {| ctx_session := ctx_session context;
           ctx_state := ctx_state context;
           accountId := match s with
                        | Some x => get_opt (state x) "accountId"
                        | None => VUndef
                        end |} in
      _ ← emit (Invoke proc context' args);
      mret (Some (AwaitInvoke proc callId iface method))
  end.

(** The rest of [rpc] once [proc.invoke] has settled: the [catch] and
    [finally] blocks and what follows them. *)
Definition rpc_invoked (proc : procedure) (callId iface method : value)
    (o : outcome jsval) : M unit :=
  match o with
  | Rejected ThrownNullish => _ ← emit (Leave proc); throw TypeError
  | Rejected (ThrownError e) =>
      let e' :=
        if String.eqb (err_message e) "Timeout reached" then
          {| err_message := err_message e; err_stack := err_stack e;
             err_code := Some 408; err_httpCode := Some 408 |}
        else e in
      _ ← error (err_code e') callId (Some e') None;
      emit (Leave proc)
  | Fulfilled result =>
      _ ← emit (Leave proc);
      match result with
      | ErrorObj e =>
          error (err_code e) callId (Some e)
            (Some (or_code (err_httpCode e) 200))
      | Plain r =>
          packet ← lift (serialize "callback"
                           (VObj [("callId", callId); ("result", r)]));
          _ ← emit (Send packet None);
          c ← read chan;
          emit (ConsoleLog (ip c +:+ tab +:+ to_string iface +:+ "/"
                              +:+ to_string method))
      end
  end.

(** [callHandler({ callId, iface, method, ver, args })]; the result lists
    the async calls it started and left pending. *)
Definition callHandler (callId iface method ver args : value) : M (list task) :=
  t1 ← resumeCookieSession;
  if negb (truthy callId) || negb (truthy iface) || negb (truthy method)
     || negb (truthy args)
  then
    _ ← error (Some 400) callId (Some (new_Error "Packet structure error")) None;
    mret (option_list t1)
  else
    t2 ← rpc callId iface ver method args;
    mret (option_list t1 ++ option_list t2)%list.

(** [streamHandler({ streamId, name, size, status })], up to its [await]. *)
Definition streamHandler (streamId name size status : value) : M (option task) :=
  stream ← read (fun w => table_get streamId (streams (chan w)));
  if truthy name && is_string name && isSafeInteger size then
    match stream with
    | Some _ =>
        _ ← error (Some 400) streamId
              (Some (new_Error ("Stream " +:+ to_string name
                                  +:+ " is already initialized"))) None;
        mret None
    | None =>
        let r := {| r_streamId := streamId; r_name := name; r_size := size;
                    r_ops := [] |} in
        _ ← set_chan (fun c => with_streams (table_set streamId r (streams c)) c);
        mret None
    end
  else
    match stream with
    | None =>
        _ ← error (Some 400) streamId
              (Some (new_Error ("Stream " +:+ to_string streamId
                                  +:+ " is not initialized"))) None;
        mret None
    | Some r =>
        let did op :=
          {| r_streamId := r_streamId r; r_name := r_name r;
             r_size := r_size r; r_ops := r_ops r ++ [op] |} in
        match status with
        | VStr "end" =>
            _ ← set_chan (fun c =>
                  with_streams (table_set streamId (did Close) (streams c)) c);
            mret (Some (AwaitClose streamId))
        | VStr "terminate" =>
            _ ← set_chan (fun c =>
                  with_streams (table_set streamId (did Terminate) (streams c)) c);
            mret (Some (AwaitTerminate streamId))
        | _ =>
            _ ← error (Some 400) streamId
                  (Some (new_Error "Stream packet structure error")) None;
            mret None
        end
    end.

(** The rest of [streamHandler] once [close()] or [terminate()] has
    settled: [this.streams.delete(streamId)]. *)
Definition streamHandler_settled (streamId : value) (o : outcome unit) : M unit :=
  match o with
  | Fulfilled _ =>
      set_chan (fun c => with_streams (table_delete streamId (streams c)) c)
  | Rejected _ => throw Rejection
  end.

(** One call from start to end, the two awaited promises settling as [entered]
    and [invoked] say. *)
Definition rpc_run (callId iface ver method args : value)
    (entered : outcome unit) (invoked : outcome jsval) : M unit :=
  t ← rpc callId iface ver method args;
  match t with
  | Some (AwaitEnter proc context c i m a) =>
      t' ← rpc_entered proc context c i m a entered;
      match t' with
      | Some (AwaitInvoke proc' c' i' m') => rpc_invoked proc' c' i' m' invoked
      | _ => mret tt
      end
  | _ => mret tt
  end.

End Methods.

(** *** Reading a trace *)

(** The world [w] after the channel has done [evs] and nothing else. *)
Definition logged (w : world) (evs : list event) : world :=
  {| reg := reg w; chan := with_trace (trace (chan w) ++ evs) (chan w) |}.

(** The world [w] with [t] for the stream table of the channel. *)
Definition with_table (w : world) (t : stream_table) : world :=
  {| reg := reg w; chan := with_streams t (chan w) |}.

Definition is_enter (e : event) : bool :=
  match e with Enter _ => true | _ => false end.

Definition is_invoke (e : event) : bool :=
  match e with Invoke _ _ _ => true | _ => false end.

Definition is_leave (e : event) : bool :=
  match e with Leave _ => true | _ => false end.

Definition is_getMethod (e : event) : bool :=
  match e with GetMethod _ _ _ => true | _ => false end.

Definition count (p : event -> bool) (evs : list event) : nat :=
  List.length (List.filter p evs).

(** The error packet on the wire: [{ callback, error: { message, code } }]. *)
Definition error_packet (callId : value) (message : string) (code : Z) : value :=
  VObj [("callback", callId);
        ("error", VObj [("message", VStr message); ("code", VNum code)])].

(** The two things a call of [error] does: a line on the console, a packet
    to the peer with the status code as a hint to the transport. *)
Definition error_events (STATUS_CODES : Z -> option string) (code : option Z)
    (callId : value) (err : option js_error) (httpCode : option Z)
    (c : channel) : list event :=
  let supplied := default 500 code in
  let http := or_code httpCode (or_code (err ≫= err_httpCode) supplied) in
  let generic := status_phrase (STATUS_CODES http) in
  let message :=
    match err with
    | Some e => if (http <? 500) || (599 <? http) then err_message e else generic
    | None => generic
    end in
  let detail :=
    match err with
    | Some e => err_stack e
    | None => default "undefined" (STATUS_CODES http)
    end in
  [ConsoleError
     (ip c +:+ tab +:+ req_method c +:+ tab +:+ req_url c +:+ tab
        +:+ pretty http +:+ tab +:+ pretty supplied +:+ tab +:+ detail);
   Send (error_packet callId message supplied) (Some http)].

(** The precedence of status codes as the specification words it: the first
    of [candidates] that is set and not zero, else [last]. *)
Fixpoint first_code (candidates : list (option Z)) (last : Z) : Z :=
  match candidates with
  | [] => last
  | Some z :: rest => if z =? 0 then first_code rest last else z
  | None :: rest => first_code rest last
  end.

(** A fresh channel, as the constructor leaves it. *)
Definition new_channel (ip method url : string) (cookie : option string) : channel :=
  {| session := None; eventId := 0; streamId := 0; streams := [];
     ip := ip; req_method := method; req_url := url; cookie_token := cookie;
     trace := [] |}.

Definition new_world : world :=
  {| reg := {| sessions := ∅; next_oid := 0 |};
     chan := new_channel "127.0.0.1" "GET" "/api" None |}.

(** A world in which the channel is bound to the session of token ["a"]
    while the registry also holds a session for token ["b"]. *)
Definition sample_sessions : world :=
  let a := {| oid := 0; token := "a"; state := VObj [] |} in
  let b := {| oid := 1; token := "b"; state := VObj [] |} in
  {| reg := {| sessions := <["a" := a]> (<["b" := b]> ∅); next_oid := 2 |};
     chan := with_session (Some a) (new_channel "127.0.0.1" "GET" "/api" None) |}.

(** Stand-ins for the collaborators, for the examples: a JSON reader that
    knows the text ["{ }"], a registry without methods, a chunk codec for
    which every frame is a chunk of stream 1, and a one-line stack. *)
Definition sample_jsonParse (text : string) : value :=
  if String.eqb text "{ }" then VObj [] else VNull.

Definition sample_getMethod (iface ver method : value) : option procedure := None.

Definition sample_Chunk_decode (frame : string) : js_error + (Z * string) :=
  inr (1, frame).

Definition sample_stack (message : string) : string := "Error: " +:+ message.

(** A few entries of [http.STATUS_CODES]. *)
Definition sample_STATUS_CODES (c : Z) : option string :=
  if c =? 200 then Some "OK"
  else if c =? 400 then Some "Bad Request"
  else if c =? 403 then Some "Forbidden"
  else if c =? 404 then Some "Not Found"
  else if c =? 408 then Some "Request Timeout"
  else if c =? 500 then Some "Internal Server Error"
  else if c =? 503 then Some "Service Unavailable"
  else None.

End Channel.

(** ** The rest of [lib/channel.js]: server events, outbound streams, teardown *)
Module Facade.
Import JS Protocol Channel.

Definition with_eventId (n : Z) (c : channel) : channel :=
  {| session := session c; eventId := n; streamId := streamId c;
     streams := streams c; ip := ip c; req_method := req_method c;
     req_url := req_url c; cookie_token := cookie_token c; trace := trace c |}.

Definition with_streamId (n : Z) (c : channel) : channel :=
  {| session := session c; eventId := eventId c; streamId := n;
     streams := streams c; ip := ip c; req_method := req_method c;
     req_url := req_url c; cookie_token := cookie_token c; trace := trace c |}.

(** Modelled from the spec: the outbound handle of the stream engine
    ([lib/streams.js]: [MetaWritable]), as the init data the channel hands to
    its constructor. *)
Record writable := {
  w_streamId : Z;
  w_name : value;
  w_size : value;
}.

(** Where [Client.emit] delivers an event: to the listeners of the client
    object, or to the peer. *)
Inductive delivery := ToListeners | ToPeer.

Section Transport.

(** [this.connection], which a transport that keeps a connection open sets.
    In a result of type [string + A], [inl message] stands for
    [throw new Error(message)]. *)
Variable connection : bool.

(** [sendEvent(name, args)] *)
Definition sendEvent (name : string) (args : value) : M (string + unit) :=
  if negb connection then mret (inl "Transport doesn't support events")
  else
    let parts := split "/" name in
    let iface := element parts 0 in
    let eventName := element parts 1 in
    _ ← set_chan (fun c => with_eventId (eventId c - 1) c);
    id ← read (fun w => eventId (chan w));
    packet ← lift (serialize "event"
                     (VObj [("eventId", VNum id); ("iface", iface);
                            ("eventName", eventName); ("args", args)]));
    _ ← emit (Send packet None);
    mret (inr tt).

(** [getStream(streamId)] *)
Definition getStream (streamId : value) : M (string + readable) :=
  if negb connection then mret (inl "Transport doesn't support streams")
  else
    stream ← read (fun w => table_get streamId (streams (chan w)));
    match stream with
    | Some r => mret (inr r)
    | None =>
        mret (inl ("Stream " +:+ to_string streamId +:+ " is not initialized"))
    end.

(** [createStream(name, size)] *)
Definition createStream (name size : value) : M (string + writable) :=
  if negb connection then mret (inl "Transport doesn't support streams")
  else if negb (truthy name) then mret (inl "Stream name is not provided")
  else if negb (truthy size) then mret (inl "Stream size is not provided")
  else
    _ ← set_chan (fun c => with_streamId (streamId c - 1) c);
    id ← read (fun w => streamId (chan w));
    mret (inr {| w_streamId := id; w_name := name; w_size := size |}).

(** [Client.emit(name, data)]: ['close'] goes to the listeners of the client,
    every other name to the peer. *)
Definition Client_emit (name : string) (data : value) : M (string + delivery) :=
  if String.eqb name "close" then mret (inr ToListeners)
  else
    r ← sendEvent name data;
    match r with
    | inl e => mret (inl e)
    | inr _ => mret (inr ToPeer)
    end.

(** [destroy()] *)
Definition destroy : M unit :=
  _ ← Client_emit "close" VUndef;
  s ← read (fun w => session (chan w));
  match s with
  | None => mret tt
  | Some x => set_sessions (delete (token x))
  end.

(** Events sent one after the other, up to the first that fails. *)
Fixpoint sendEvents (events : list (string * value)) : M (string + unit) :=
  match events with
  | [] => mret (inr tt)
  | (name, args) :: rest =>
      r ← sendEvent name args;
      match r with
      | inl e => mret (inl e)
      | inr _ => sendEvents rest
      end
  end.

(** Requests for outbound streams, one after the other; the result keeps
    what each call returned or raised. *)
Fixpoint createStreams (requests : list (value * value))
    : M (list (string + writable)) :=
  match requests with
  | [] => mret []
  | (name, size) :: rest =>
      r ← createStream name size;
      rs ← createStreams rest;
      mret (r :: rs)
  end.

(** A call that changes the sessions: one of the three session methods of
    the client, or the teardown of the channel. *)
Inductive session_op :=
  | Initialize (token : string) (data : value)
  | Finalize (token : string)
  | Restore (token : string)
  | Destroy.

Definition run_session_op (op : session_op) : M unit :=
  match op with
  | Initialize token data => _ ← initializeSession token data; mret tt
  | Finalize token => _ ← finalizeSession token; mret tt
  | Restore token => _ ← restoreSession token; mret tt
  | Destroy => destroy
  end.

End Transport.

(** [get token()] of a channel *)
Definition channel_token (c : channel) : string :=
  match session c with
  | None => EmptyString
  | Some s => token s
  end.

(** The registry files every session under its own token, and no session
    object in it is newer than the allocator says. *)
Definition registry_ok (r : registry) : Prop :=
  forall t s, sessions r !! t = Some s -> token s = t /\ (oid s < next_oid r)%nat.

(** The session a channel is bound to was allocated before now. *)
Definition bound_ok (r : registry) (c : channel) : Prop :=
  forall s, session c = Some s -> (oid s < next_oid r)%nat.

(** The ids of the handles among the results of [createStreams]. *)
Definition handle_ids (results : list (string + writable)) : list Z :=
  omap (fun r => match r with inr h => Some (w_streamId h) | inl _ => None end)
    results.

(** [n] ids counting down from below [start]: [start - 1], [start - 2], ... *)
Definition countdown (start : Z) (n : nat) : list Z :=
  List.map (fun i => start - Z.of_nat (S i)) (seq 0 n).

(** The event packet of [sendEvent] for [name], under the id [id]. *)
Definition event_packet (id : Z) (name : string) (args : value) : value :=
  VObj [("event", VNum id);
        (event_key (element (split "/" name) 0) (element (split "/" name) 1),
         args)].

(** Stand-ins for the examples: a JSON reader for which every text is one
    callback packet, one for which every text is one call packet, a registry
    with one method that is not public. *)
Definition sample_callback : value :=
  VObj [("callback", VNum 7); ("result", VNull)].

Definition sample_jsonParse_callback (text : string) : value := sample_callback.

Definition sample_jsonParse_call (text : string) : value :=
  VObj [("call", VNum 1); ("auth/signIn", credentials)].

(** A channel without a session whose request carries the cookie token
    ["a"], in a world where the registry holds a session for ["a"] (as in
    [sample_sessions]) or holds nothing. *)
Definition cookie_channel : channel :=
  new_channel "127.0.0.1" "POST" "/api" (Some "a").

Definition sample_cookie_known : world :=
  {| reg := reg sample_sessions; chan := cookie_channel |}.

Definition sample_cookie_unknown : world :=
  {| reg := reg new_world; chan := cookie_channel |}.

Definition sample_procedure : procedure :=
  {| proc_name := "auth.signIn"; access := "session" |}.

Definition sample_registry (iface ver method : value) : option procedure :=
  Some sample_procedure.

End Facade.

(** * Properties *)

(** ** Strings, splitting and number syntax *)
Module JSFacts.
Import JS Protocol.

Lemma split_nonempty sep s : exists h t, split sep s = h :: t.
Proof.
  induction s as [|c r IH]; simpl; [eauto|].
  destruct (Ascii.eqb c sep); [eauto|].
  destruct IH as (h & t & ->). eauto.
Qed.

Lemma split_app sep a b h t :
  no_char sep a = true -> split sep b = h :: t ->
  split sep (a +:+ b) = (a +:+ h) :: t.
Proof.
  revert h t. induction a as [|c r IH]; intros h t Ha Hb; simpl in *; [done|].
  apply andb_prop in Ha as [Hc Hr].
  apply negb_true_iff in Hc. rewrite Hc.
  by rewrite (IH h t Hr Hb).
Qed.

Lemma split_none sep a : no_char sep a = true -> split sep a = [a].
Proof.
  induction a as [|c r IH]; intros Ha; simpl in *; [done|].
  apply andb_prop in Ha as [Hc Hr].
  apply negb_true_iff in Hc. rewrite Hc. by rewrite (IH Hr).
Qed.

Lemma split_sep sep b : split sep (String sep b) = EmptyString :: split sep b.
Proof. simpl. by rewrite Ascii.eqb_refl. Qed.

Lemma app_cons c (r s : string) : String c r +:+ s = String c (r +:+ s).
Proof. reflexivity. Qed.

Lemma app_empty_r (s : string) : s +:+ EmptyString = s.
Proof. induction s as [|c r IH]; [done|]. by rewrite app_cons, IH. Qed.

(** Splitting [a ++ sep ++ b] when neither part holds the separator. *)
Lemma split_two sep a b :
  no_char sep a = true -> no_char sep b = true ->
  split sep (a +:+ String sep b) = [a; b].
Proof.
  intros Ha Hb.
  rewrite (split_app sep a (String sep b) EmptyString [b]); [by rewrite app_empty_r|done|].
  by rewrite split_sep, split_none.
Qed.

Lemma no_char_app c a b : no_char c (a +:+ b) = no_char c a && no_char c b.
Proof.
  induction a as [|x r IH]; [done|].
  rewrite app_cons. simpl. by rewrite IH, andb_assoc.
Qed.

Lemma has_char_neq c a b s :
  no_char c s = true -> a +:+ String c b <> s.
Proof.
  intros Hs <-. rewrite no_char_app in Hs. simpl in Hs.
  rewrite Ascii.eqb_refl in Hs. simpl in Hs.
  by rewrite andb_false_r in Hs.
Qed.

Lemma has_char_eqb c a b s :
  no_char c s = true -> String.eqb (a +:+ String c b) s = false.
Proof. intros Hs. apply String.eqb_neq. by apply has_char_neq. Qed.

Lemma is_digit_neq c x :
  is_digit c = true -> is_digit x = false -> Ascii.eqb c x = false.
Proof. intros Hc Hx. destruct (Ascii.eqb_spec c x); [congruence|done]. Qed.

Lemma is_digit_not_white c : is_digit c = true -> is_white c = false.
Proof. destruct c as [[] [] [] [] [] [] [] []]; vm_compute; congruence. Qed.

Lemma all_digits_no_char sep s :
  is_digit sep = false -> all_digits s = true -> no_char sep s = true.
Proof.
  intros Hsep. induction s as [|c r IH]; simpl; [done|].
  intros [Hc Hr]%andb_prop. by rewrite (is_digit_neq c sep), IH.
Qed.

Lemma all_digits_skip_white s : all_digits s = true -> skip_white s = s.
Proof.
  destruct s as [|c r]; simpl; [done|].
  intros [Hc _]%andb_prop. by rewrite is_digit_not_white.
Qed.

Lemma all_digits_strip_sign s : all_digits s = true -> strip_sign s = (false, s).
Proof.
  destruct s as [|c r]; simpl; [done|].
  intros [Hc _]%andb_prop. by rewrite !(is_digit_neq c).
Qed.

Lemma all_digits_strip_hex s : all_digits s = true -> strip_hex s = (10, s).
Proof.
  destruct s as [|c [|x r]]; simpl; [done..|].
  intros [_ [Hx _]%andb_prop]%andb_prop.
  by rewrite !(is_digit_neq x), andb_false_r.
Qed.

Lemma digit_val_char x :
  (x < 10)%N -> digit_val 10 (pretty_N_char x) = Some (Z.of_N x).
Proof.
  intros Hx.
  assert (x = 0 \/ x = 1 \/ x = 2 \/ x = 3 \/ x = 4 \/ x = 5 \/ x = 6
          \/ x = 7 \/ x = 8 \/ x = 9)%N as Hcases by lia.
  repeat (destruct Hcases as [->|Hcases]; [reflexivity|]). by subst.
Qed.

Lemma is_digit_char x : (x < 10)%N -> is_digit (pretty_N_char x) = true.
Proof. intros Hx. unfold is_digit. by rewrite digit_val_char. Qed.

(** The digits [pretty_N_go] puts in front of [s] are decimal digits. *)
Lemma all_digits_pretty_N_go x s :
  all_digits (pretty_N_go x s) = all_digits s.
Proof.
  revert s. induction (N.lt_wf_0 x) as [x _ IH]; intros s.
  assert (x = 0 \/ 0 < x)%N as [->|Hx] by lia; [done|].
  rewrite pretty_N_go_step by done.
  rewrite IH by (by apply N.div_lt). simpl.
  by rewrite is_digit_char by (by apply N.mod_lt).
Qed.

(** Reading back the digits [pretty_N_go] wrote: they extend the number
    read so far by [x]. *)
Lemma digits_go_pretty_N_go x s :
  (0 < x)%N ->
  exists k : nat, forall acc,
    digits_go 10 acc (pretty_N_go x s)
    = digits_go 10 (Some (default 0 acc * 10 ^ Z.of_nat k + Z.of_N x)) s.
Proof.
  revert s. induction (N.lt_wf_0 x) as [x _ IH]; intros s Hx.
  rewrite pretty_N_go_step by done.
  assert (Z.of_N x = Z.of_N (x `div` 10) * 10 + Z.of_N (x `mod` 10)) as Hdm.
  { pose proof (N.div_mod x 10 ltac:(done)) as Hx10. lia. }
  destruct (N.eq_0_gt_0_cases (x `div` 10)) as [Hq|Hq].
  - exists 1%nat. intros acc. rewrite Hq, pretty_N_go_0 in *. simpl.
    rewrite digit_val_char by (by apply N.mod_lt).
    do 2 f_equal. lia.
  - destruct (IH (x `div` 10)%N (N.div_lt x 10 Hx eq_refl)
                (String (pretty_N_char (x `mod` 10)) s) Hq) as [k Hk].
    exists (S k). intros acc. rewrite Hk. simpl digits_go.
    rewrite digit_val_char by (by apply N.mod_lt). simpl default.
    do 2 f_equal. rewrite Nat2Z.inj_succ, Z.pow_succ_r by lia. lia.
Qed.

Lemma pretty_Zpos p : pretty (Zpos p) = pretty_N_go (Npos p) EmptyString.
Proof.
  unfold pretty at 1, pretty_Z, pretty at 1, pretty_positive, pretty, pretty_N.
  by destruct (decide (Npos p = 0%N)).
Qed.

Lemma pretty_Zneg p : pretty (Zneg p) = String "-" (pretty_N_go (Npos p) EmptyString).
Proof.
  unfold pretty at 1, pretty_Z, pretty at 1, pretty_positive, pretty, pretty_N.
  by destruct (decide (Npos p = 0%N)).
Qed.

Lemma parseInt_digits x :
  (0 < x)%N ->
  let s := pretty_N_go x EmptyString in
  all_digits s = true /\ digits_go 10 None s = Some (Z.of_N x).
Proof.
  intros Hx s. split.
  - unfold s. by rewrite all_digits_pretty_N_go.
  - destruct (digits_go_pretty_N_go x EmptyString Hx) as [k Hk].
    unfold s. rewrite Hk. simpl. by f_equal.
Qed.

Lemma parseInt_minus s :
  all_digits s = true ->
  parseInt (String "-" s)
  = match digits_go 10 None s with Some n => VNum (- n) | None => VNaN end.
Proof.
  intros Hs. unfold parseInt.
  change (skip_white (String "-" s)) with (String "-" s).
  change (strip_sign (String "-" s)) with (true, s). cbv beta iota.
  by rewrite all_digits_strip_hex.
Qed.

(** [parseInt(String(z)) = z] *)
Lemma parseInt_pretty (z : Z) : parseInt (pretty z) = VNum z.
Proof.
  destruct z as [|p|p].
  - reflexivity.
  - rewrite pretty_Zpos.
    destruct (parseInt_digits (Npos p) eq_refl) as [Hd Hv]. unfold parseInt.
    by rewrite all_digits_skip_white, all_digits_strip_sign,
      all_digits_strip_hex, Hv.
  - rewrite pretty_Zneg.
    destruct (parseInt_digits (Npos p) eq_refl) as [Hd Hv].
    by rewrite parseInt_minus, Hv.
Qed.

(** A printed integer holds neither of the separators of a routing key. *)
Lemma pretty_no_char sep (z : Z) :
  is_digit sep = false -> Ascii.eqb "-" sep = false ->
  no_char sep (pretty z) = true.
Proof.
  intros Hsep Hdash. destruct z as [|p|p].
  - apply (all_digits_no_char sep "0"); done.
  - rewrite pretty_Zpos. apply all_digits_no_char; [done|].
    by rewrite all_digits_pretty_N_go.
  - rewrite pretty_Zneg.
    change (no_char sep (String "-" ?s))
      with (negb (Ascii.eqb "-" sep) && no_char sep s).
    rewrite Hdash. apply all_digits_no_char; [done|].
    by rewrite all_digits_pretty_N_go.
Qed.

Lemma pretty_nonempty (z : Z) : String.eqb (pretty z) EmptyString = false.
Proof.
  destruct z as [|p|p]; [done| |by rewrite pretty_Zneg].
  rewrite pretty_Zpos. apply String.eqb_neq. intros Heq.
  destruct (parseInt_digits (Npos p) eq_refl) as [_ Hv].
  rewrite Heq in Hv. discriminate Hv.
Qed.

End JSFacts.

(** ** The codec *)
Module ProtocolSpec.
Import JS Protocol JSFacts.

Lemma bind_normal {A B} (a : A) (k : A -> completion B) :
  (Normal a ≫= k) = k a.
Proof. reflexivity. Qed.

Lemma get_normal o k : nullish o = false -> get o k = Normal (get_opt o k).
Proof. intros Ho. unfold get. by rewrite Ho. Qed.

Lemma assoc_head k v rest : assoc k ((k, v) :: rest) = Some v.
Proof. simpl. by rewrite String.eqb_refl. Qed.

(** What [serialize] builds for each of the five kinds. *)
Lemma serialize_call o :
  nullish o = false ->
  serialize "call" o
  = Normal (VObj [("call", get_opt o "callId");
                  (call_key (get_opt o "iface") (get_opt o "ver")
                     (get_opt o "method"), get_opt o "args")]).
Proof.
  intros Ho. unfold serialize.
  change (serializer "call") with (Own serializer_call).
  unfold call_member, serializer_call. by rewrite !get_normal.
Qed.

Lemma serialize_event o :
  nullish o = false ->
  serialize "event" o
  = Normal (VObj [("event", get_opt o "eventId");
                  (event_key (get_opt o "iface") (get_opt o "eventName"),
                   get_opt o "args")]).
Proof.
  intros Ho. unfold serialize.
  change (serializer "event") with (Own serializer_event).
  unfold call_member, serializer_event. by rewrite !get_normal.
Qed.

(** Decoding a two-key object whose dynamic key holds a ["/"]. *)
Lemma deserialize_call c a b args :
  let key := a +:+ String "/" b in
  let parts := split "/" key in
  let iparts := split_opt "." (element parts 0) in
  deserialize (VObj [("call", c); (key, args)])
  = Normal (Some ("call",
      CallData c (element iparts 0) (element parts 1)
        (parse_ver (element iparts 1)) args)).
Proof.
  intros key parts iparts.
  assert (String.eqb key "error" = false) as Herr by (by apply has_char_eqb).
  assert (String.eqb key "call" = false) as Hcall by (by apply has_char_eqb).
  unfold deserialize, get, own_fields, assoc. simpl nullish. cbv iota.
  rewrite Herr. simpl.
  change (deserializer "call") with (Own deserializer_call).
  unfold call_member, deserializer_call, rest, get, own_fields. simpl.
  rewrite Hcall. simpl. by rewrite String.eqb_refl.
Qed.

Lemma deserialize_event c a b args :
  let key := a +:+ String "/" b in
  let parts := split "/" key in
  deserialize (VObj [("event", c); (key, args)])
  = Normal (Some ("event",
      EventData c (element parts 0) (element parts 1) args)).
Proof.
  intros key parts.
  assert (String.eqb key "error" = false) as Herr by (by apply has_char_eqb).
  assert (String.eqb key "event" = false) as Hev by (by apply has_char_eqb).
  unfold deserialize, get, own_fields, assoc. simpl nullish. cbv iota.
  rewrite Herr. simpl.
  change (deserializer "event") with (Own deserializer_event).
  unfold call_member, deserializer_event, rest, get, own_fields. simpl.
  rewrite Hev. simpl. by rewrite String.eqb_refl.
Qed.

Lemma app_assoc3 (a b c : string) : a +:+ (b +:+ c) = (a +:+ b) +:+ c.
Proof. induction a as [|x r IH]; [done|]. by rewrite !app_cons, IH. Qed.

Lemma valid_version_cases v :
  valid_version v = true ->
  v = VUndef \/ exists z, v = VNum z /\ z <> 0.
Proof.
  destruct v; try discriminate; [by left|].
  simpl. intros [Hz _]%andb_prop. right. eexists. split; [done|].
  apply negb_true_iff in Hz. lia.
Qed.

(** The two shapes of a routing key and how they decode. *)
Lemma call_key_versioned i (z : Z) m :
  z <> 0 ->
  call_key (VStr i) (VNum z) (VStr m)
  = (i +:+ String "." (pretty z)) +:+ String "/" m.
Proof.
  intros Hz. unfold call_key. simpl.
  destruct (Z.eqb_spec z 0) as [|_]; [done|]. simpl.
  by rewrite app_assoc3.
Qed.

Lemma roundtrip_call o c i m ver a :
  nullish o = false ->
  fields_of KCall o = CallData c (VStr i) (VStr m) ver a ->
  no_char "/" i = true -> no_char "." i = true -> no_char "/" m = true ->
  valid_version ver = true ->
  let key := match ver with
             | VNum v => i +:+ "." +:+ pretty v +:+ "/" +:+ m
             | _ => i +:+ "/" +:+ m
             end in
  let w := VObj [("call", c); (key, a)] in
  serialize "call" o = Normal w /\
  deserialize w = Normal (Some ("call", CallData c (VStr i) (VStr m) ver a)).
Proof.
  intros Ho [= Hc Hi Hm Hver Ha] Hi1 Hi2 Hm1 Hv key w.
  rewrite serialize_call, Hc, Hi, Hm, Hver, Ha by done.
  destruct (valid_version_cases ver Hv) as [->|(z & -> & Hz)].
  - split; [done|]. unfold w, key.
    change ("/" +:+ m) with (String "/" m).
    rewrite (deserialize_call c i m a).
    rewrite (split_two "/" i m) by done. simpl.
    by rewrite (split_none "." i).
  - rewrite call_key_versioned by done. unfold w, key. clear w key.
    change ("/" +:+ m) with (String "/" m).
    change ("." +:+ pretty z +:+ String "/" m)
      with (String "." (pretty z) +:+ String "/" m).
    rewrite app_assoc3. split; [done|].
    rewrite deserialize_call.
    rewrite (split_two "/" (i +:+ String "." (pretty z)) m); last done.
    2:{ rewrite no_char_app, Hi1. simpl. by apply pretty_no_char. }
    simpl. rewrite (split_two "." i (pretty z)); [|done|by apply pretty_no_char].
    simpl. unfold parse_ver. simpl.
    by rewrite pretty_nonempty, parseInt_pretty.
Qed.

Lemma roundtrip_event o e i n a :
  nullish o = false ->
  fields_of KEvent o = EventData e (VStr i) (VStr n) a ->
  no_char "/" i = true -> no_char "/" n = true ->
  roundtrip KEvent o = Normal (Some ("event", EventData e (VStr i) (VStr n) a)).
Proof.
  intros Ho [= He Hi Hn Ha] Hi1 Hn1. unfold roundtrip. simpl kind_name.
  rewrite serialize_event, He, Hi, Hn, Ha, bind_normal by done.
  unfold event_key, to_string. change ("/" +:+ n) with (String "/" n).
  rewrite (deserialize_event e i n a).
  by rewrite (split_two "/" i n).
Qed.

(** *** The vectors of [test/protocol.js] *)

Example test_serialize_unknown : serialize "unknown" (VObj []) = Normal VNull.
Proof. reflexivity. Qed.

Example test_deserialize_empty : deserialize (VObj []) = Normal None.
Proof. reflexivity. Qed.

Example test_serialize_empty_descriptor :
  Forall (fun K => exists fields, serialize (kind_name K) (VObj []) = Normal (VObj fields))
    [KCall; KCallback; KEvent; KStream; KError].
Proof. repeat constructor; by eexists. Qed.

Example test_call_normal :
  serialize "call" (sample_call (VNum 1))
  = Normal (VObj [("call", VNum 1); ("auth.1/signIn", credentials)]) /\
  deserialize (VObj [("call", VNum 1); ("auth.1/signIn", credentials)])
  = Normal (Some ("call", CallData (VNum 1) (VStr "auth") (VStr "signIn")
                            (VNum 1) credentials)).
Proof. by vm_compute. Qed.

Example test_call_withoutVersion :
  serialize "call" (sample_call VUndef)
  = Normal (VObj [("call", VNum 1); ("auth/signIn", credentials)]) /\
  deserialize (VObj [("call", VNum 1); ("auth/signIn", credentials)])
  = Normal (Some ("call", CallData (VNum 1) (VStr "auth") (VStr "signIn")
                            VUndef credentials)).
Proof. by vm_compute. Qed.

Example test_callback_normal :
  let result := VObj [("token", VStr "random-string")] in
  serialize "callback" (VObj [("callId", VNum 1); ("result", result)])
  = Normal (VObj [("callback", VNum 1); ("result", result)]) /\
  deserialize (VObj [("callback", VNum 1); ("result", result)])
  = Normal (Some ("callback", CallbackData (VNum 1) result)).
Proof. by vm_compute. Qed.

Example test_event_normal :
  let args := VObj [("accountId", VStr "random-string")] in
  serialize "event"
    (VObj [("eventId", VNum (-1)); ("iface", VStr "account");
           ("eventName", VStr "created"); ("args", args)])
  = Normal (VObj [("event", VNum (-1)); ("account/created", args)]) /\
  deserialize (VObj [("event", VNum (-1)); ("account/created", args)])
  = Normal (Some ("event", EventData (VNum (-1)) (VStr "account")
                             (VStr "created") args)).
Proof. by vm_compute. Qed.

Example test_stream_initializing :
  let wire := VObj [("stream", VNum 1); ("name", VStr "some-name");
                    ("size", VNum 1000000000); ("status", VUndef)] in
  serialize "stream"
    (VObj [("streamId", VNum 1); ("name", VStr "some-name");
           ("size", VNum 1000000000); ("status", VUndef)])
  = Normal wire /\
  deserialize wire
  = Normal (Some ("stream", StreamData (VNum 1) (VStr "some-name")
                              (VNum 1000000000) VUndef)).
Proof. by vm_compute. Qed.

Example test_stream_finalizing :
  let wire := VObj [("stream", VNum 1); ("name", VUndef); ("size", VUndef);
                    ("status", VStr "end")] in
  serialize "stream"
    (VObj [("streamId", VNum 1); ("status", VStr "end"); ("name", VUndef);
           ("size", VUndef)])
  = Normal wire /\
  deserialize wire
  = Normal (Some ("stream", StreamData (VNum 1) VUndef VUndef (VStr "end"))).
Proof. by vm_compute. Qed.

Example test_error_normal :
  let wire := VObj [("callback", VNum 1);
                    ("error", VObj [("message", VStr "Invalid data");
                                    ("code", VNum 400)])] in
  serialize "error"
    (VObj [("callId", VNum 1); ("message", VStr "Invalid data");
           ("code", VNum 400)])
  = Normal wire /\
  deserialize wire
  = Normal (Some ("error", ErrorData (VNum 1) (VStr "Invalid data") (VNum 400))).
Proof. by vm_compute. Qed.

Example test_error_withoutCode :
  let wire := VObj [("callback", VNum 1);
                    ("error", VObj [("message", VStr "Invalid data");
                                    ("code", VUndef)])] in
  serialize "error"
    (VObj [("callId", VNum 1); ("message", VStr "Invalid data");
           ("code", VUndef)])
  = Normal wire /\
  deserialize wire
  = Normal (Some ("error", ErrorData (VNum 1) (VStr "Invalid data") VUndef)).
Proof. by vm_compute. Qed.

(** Decoding reads more than encoding writes: a version that is not a
    number, an empty version, a key without a method. *)
Example decode_odd_keys :
  deserialize (VObj [("call", VNum 1); ("auth.x/signIn", VNull)])
  = Normal (Some ("call", CallData (VNum 1) (VStr "auth") (VStr "signIn") VNaN VNull)) /\
  deserialize (VObj [("call", VNum 1); ("auth./signIn", VNull)])
  = Normal (Some ("call", CallData (VNum 1) (VStr "auth") (VStr "signIn")
                            (VStr EmptyString) VNull)) /\
  deserialize (VObj [("call", VNum 1)])
  = Normal (Some ("call", CallData (VNum 1) VUndef VUndef VUndef VUndef)) /\
  deserialize (VObj [("toString", VNum 1)]) = Inherited "toString".
Proof. by vm_compute. Qed.

Lemma roundtrip_fixed K o :
  nullish o = false ->
  K = KCallback \/ K = KStream \/ K = KError ->
  roundtrip K o = Normal (Some (kind_name K, fields_of K o)).
Proof.
  intros Ho [-> | [-> | ->]]; unfold roundtrip, serialize; simpl kind_name.
  - change (serializer "callback") with (Own serializer_callback).
    unfold call_member, serializer_callback. by rewrite !get_normal.
  - change (serializer "stream") with (Own serializer_stream).
    unfold call_member, serializer_stream. by rewrite !get_normal.
  - change (serializer "error") with (Own serializer_error).
    unfold call_member, serializer_error. by rewrite !get_normal.
Qed.

(** C1, as amended. For each of the five kinds and every valid field set
    (the names of a routing key are strings free of its separators; a
    version is absent or a safe integer other than zero), decoding the
    encoding gives back the kind and the fields.  A call without a version
    is encoded under the key ["iface/method"] and decodes to an absent
    version; a call with the integer version [v], not zero, is encoded
    under ["iface.v/method"] and decodes to the integer [v]. *)
Theorem roundtrip_valid K o :
  nullish o = false ->
  valid (fields_of K o) = true ->
  roundtrip K o = Normal (Some (kind_name K, fields_of K o)) /\
  forall c i m ver a,
    fields_of K o = CallData c (VStr i) (VStr m) ver a ->
    serialize (kind_name K) o
    = Normal (VObj [("call", c);
                    (match ver with
                     | VNum v => i +:+ "." +:+ pretty v +:+ "/" +:+ m
                     | _ => i +:+ "/" +:+ m
                     end, a)]).
Proof.
  intros Ho Hvalid. destruct K.
  - simpl in Hvalid.
    destruct (get_opt o "iface") as [| | | | |i| |] eqn:Hi; try discriminate.
    destruct (get_opt o "method") as [| | | | |m| |] eqn:Hm; try discriminate.
    apply andb_prop in Hvalid as [[[Hi1 Hi2]%andb_prop Hm1]%andb_prop Hv].
    destruct (roundtrip_call o (get_opt o "callId") i m (get_opt o "ver")
                (get_opt o "args") Ho) as [Hser Hde]; try done.
    { simpl. by rewrite Hi, Hm. }
    split.
    + unfold roundtrip. simpl kind_name. rewrite Hser, bind_normal, Hde.
      simpl. by rewrite Hi, Hm.
    + intros c i' m' ver a. simpl. rewrite Hi, Hm. intros [= <- <- <- <- <-].
      apply Hser.
  - split; [apply roundtrip_fixed; auto|]. intros ? ? ? ? ? [=].
  - split; [|intros ? ? ? ? ? [=]]. simpl in Hvalid.
    destruct (get_opt o "iface") as [| | | | |i| |] eqn:Hi; try discriminate.
    destruct (get_opt o "eventName") as [| | | | |n| |] eqn:Hn; try discriminate.
    apply andb_prop in Hvalid as [Hi1 Hn1].
    simpl kind_name. simpl fields_of. rewrite Hi, Hn.
    apply roundtrip_event; try done. simpl. by rewrite Hi, Hn.
  - split; [apply roundtrip_fixed; auto|]. intros ? ? ? ? ? [=].
  - split; [apply roundtrip_fixed; auto|]. intros ? ? ? ? ? [=].
Qed.

Lemma roundtrip_valid_witness :
  let o := sample_call (VNum 1) in
  nullish o = false /\ valid (fields_of KCall o) = true /\
  roundtrip KCall o = Normal (Some ("call", fields_of KCall o)) /\
  serialize "call" o
  = Normal (VObj [("call", VNum 1); ("auth.1/signIn", credentials)]).
Proof.
  intros o. split; [reflexivity|]. split; [reflexivity|].
  destruct (roundtrip_valid KCall o eq_refl eq_refl) as [Hrt Hkey].
  split; [exact Hrt|]. exact (Hkey _ _ _ _ _ eq_refl).
Defined.

(** C1, as stated, fails for the integer version 0: the call is encoded
    under the key ["auth/signIn"], not ["auth.0/signIn"], and decodes to an
    absent version, not to the integer 0. *)
Lemma roundtrip_version_zero :
  let o := sample_call (VNum 0) in
  exists c a,
    serialize "call" o = Normal (VObj [("call", c); ("auth/signIn", a)]) /\
    roundtrip KCall o
    = Normal (Some ("call", CallData c (VStr "auth") (VStr "signIn") VUndef a)) /\
    roundtrip KCall o <> Normal (Some ("call", fields_of KCall o)).
Proof. intros o. do 2 eexists. by vm_compute. Qed.

(** A first key that names no decoder, own or inherited, makes
    [deserialize] call [undefined]. *)
Lemma deserialize_unknown k v fields :
  truthy (get_opt (VObj ((k, v) :: fields)) "error") = false ->
  String.eqb k EmptyString = false ->
  deserializer k = Missing ->
  deserialize (VObj ((k, v) :: fields)) = Throw TypeError.
Proof.
  intros Herr Hk Hmiss. unfold deserialize.
  rewrite get_normal, bind_normal, Herr by done.
  unfold first_key, keys. simpl nullish. cbn iota.
  rewrite !bind_normal. unfold mret, completion_ret. rewrite ?bind_normal.
  cbn [own_fields List.map fst element lookup list_lookup truthy].
  rewrite Hk. cbn [negb to_string]. by rewrite Hmiss.
Qed.

(** C2, as the code has it. The empty object decodes to [null]; an object
    whose first key names no packet kind (and which has no [error] field)
    does not: [deserialize] raises a [TypeError]. *)
Theorem deserialize_unknown_key_throws :
  deserialize (VObj []) = Normal None /\
  deserialize (VObj [("foo", VNum 1)]) = Throw TypeError.
Proof.
  split; [reflexivity|]. by apply deserialize_unknown.
Qed.




End ProtocolSpec.

(** ** Sessions *)
Module SessionSpec.
Import JS Channel.

(** What [initializeSession] does, by cases on the data: the entry of the
    session the channel was bound to is dropped before the new session is
    built, so it is gone also when the constructor raises. *)
Lemma initializeSession_cases token data w :
  initializeSession token data w
  = let kept :=
      match session (chan w) with
      | Some old => delete (Channel.token old) (sessions (reg w))
      | None => sessions (reg w)
      end in
    if is_object (default_arg (VObj []) data) then
      (Normal true,
       let s := {| oid := next_oid (reg w); token := token;
                   state := default_arg (VObj []) data |} in
       {| reg := {| sessions := <[token := s]> kept;
                    next_oid := S (next_oid (reg w)) |};
          chan := with_session (Some s) (chan w) |})
    else
      (Throw TypeError,
       {| reg := {| sessions := kept; next_oid := next_oid (reg w) |};
          chan := chan w |}).
Proof.
  unfold initializeSession, new_Session, createProxy. destruct w as [[ss n] c].
  cbv zeta. unfold mbind, M_bind, read. cbn [chan reg sessions next_oid].
  destruct (session c), (is_object (default_arg (VObj []) data)); reflexivity.
Qed.

Lemma initializeSession_eq token data w :
  is_object (default_arg (VObj []) data) = true ->
  initializeSession token data w
  = (Normal true,
     let s := {| oid := next_oid (reg w); token := token;
                 state := default_arg (VObj []) data |} in
     {| reg := {| sessions :=
                    <[token := s]>
                      (match session (chan w) with
                       | Some old => delete (Channel.token old) (sessions (reg w))
                       | None => sessions (reg w)
                       end);
                  next_oid := S (next_oid (reg w)) |};
        chan := with_session (Some s) (chan w) |}).
Proof.
  intros Hobj. rewrite initializeSession_cases. cbv zeta. by rewrite Hobj.
Qed.

Lemma default_arg_object d data :
  is_object data = true -> default_arg d data = data.
Proof. by destruct data. Qed.

Lemma finalizeSession_eq token w :
  finalizeSession token w
  = match sessions (reg w) !! token, session (chan w) with
    | Some _, Some current =>
        (Normal true,
         {| reg := {| sessions := delete (Channel.token current) (sessions (reg w));
                      next_oid := next_oid (reg w) |};
            chan := with_session None (chan w) |})
    | _, _ => (Normal false, w)
    end.
Proof.
  unfold finalizeSession. destruct w as [[ss n] c]. simpl.
  unfold mbind, M_bind, read. simpl.
  destruct (ss !! token); [|done]. cbn. by destruct (session c).
Qed.

(** C6, amended.  Session invariant: after [initializeSession(tokenA,
    dataA)] and then [initializeSession(tokenB, dataB)] on one channel, with
    distinct tokens, session data that are objects (data left out stand
    for [{}]) and whatever the shared registry held before, the registry
    has no entry for [tokenA], has an entry for [tokenB], and that entry is
    the session object the channel is bound to.  Both calls return
    [true]. *)
Theorem initializeSession_rebinds tokenA tokenB dataA dataB w :
  tokenA <> tokenB ->
  is_object (default_arg (VObj []) dataA) = true ->
  is_object (default_arg (VObj []) dataB) = true ->
  let '(r1, w1) := initializeSession tokenA dataA w in
  let '(r2, w2) := initializeSession tokenB dataB w1 in
  r1 = Normal true /\ r2 = Normal true /\
  sessions (reg w2) !! tokenA = None /\
  exists s,
    sessions (reg w2) !! tokenB = Some s /\
    session (chan w2) = Some s /\
    token s = tokenB /\ state s = default_arg (VObj []) dataB.
Proof.
  intros Hne HA HB. rewrite !initializeSession_eq by done. simpl.
  do 2 (split; [done|]). split.
  - rewrite lookup_insert_ne by done. apply lookup_delete_eq.
  - eexists. split; [apply lookup_insert_eq|done].
Qed.

(** C6 does not hold for data that is not an object: the second call drops
    the entry of [tokenA], then [new Proxy(null, ...)] raises a [TypeError].
    The registry is left with neither token, and the channel stays bound to
    the [tokenA] session. *)
Lemma initializeSession_null_data :
  let '(r1, w1) := initializeSession "tokenA" (VObj []) new_world in
  let '(r2, w2) := initializeSession "tokenB" VNull w1 in
  r1 = Normal true /\ r2 = Throw TypeError /\
  sessions (reg w2) !! "tokenA" = None /\
  sessions (reg w2) !! "tokenB" = None /\
  exists s, session (chan w2) = Some s /\ token s = "tokenA".
Proof.
  rewrite !initializeSession_cases. simpl.
  do 2 (split; [done|]). split; [apply lookup_delete_eq|].
  split; [by rewrite lookup_delete_ne|]. by eexists.
Qed.

Lemma initializeSession_rebinds_witness :
  "tokenA" <> "tokenB" /\
  let '(r1, w1) := initializeSession "tokenA" (VObj []) new_world in
  let '(r2, w2) := initializeSession "tokenB" (VObj []) w1 in
  r1 = Normal true /\ r2 = Normal true /\
  sessions (reg w2) !! "tokenA" = None /\
  exists s,
    sessions (reg w2) !! "tokenB" = Some s /\
    session (chan w2) = Some s /\
    token s = "tokenB" /\ state s = VObj [].
Proof.
  split; [discriminate|].
  apply (initializeSession_rebinds "tokenA" "tokenB" (VObj []) (VObj []) new_world);
    [discriminate|reflexivity|reflexivity].
Defined.

(** C7. [finalizeSession(token)] returns [false] and leaves the registry and
    the channel as they were when [token] is not registered or the channel
    has no bound session.  Otherwise it returns [true], removes from the
    registry the token of the session the channel is bound to, and unbinds
    the channel; when that token is not the argument, the entry the argument
    names stays registered. *)
Theorem finalizeSession_spec token w :
  match sessions (reg w) !! token, session (chan w) with
  | Some named, Some current =>
      exists w',
        finalizeSession token w = (Normal true, w') /\
        sessions (reg w') = delete (Channel.token current) (sessions (reg w)) /\
        sessions (reg w') !! Channel.token current = None /\
        session (chan w') = None /\
        (Channel.token current <> token ->
         sessions (reg w') !! token = Some named)
  | _, _ => finalizeSession token w = (Normal false, w)
  end.
Proof.
  rewrite finalizeSession_eq.
  destruct (sessions (reg w) !! token) as [named|] eqn:Hnamed; [|done].
  destruct (session (chan w)) as [current|]; [|done].
  eexists. split; [done|]. simpl.
  split; [done|]. split; [apply lookup_delete_eq|]. split; [done|].
  intros Hne. by rewrite lookup_delete_ne.
Qed.

Lemma finalizeSession_spec_witness :
  exists named w',
    sessions (reg sample_sessions) !! "b" = Some named /\
    finalizeSession "b" sample_sessions = (Normal true, w') /\
    sessions (reg w') !! "a" = None /\
    sessions (reg w') !! "b" = Some named /\
    session (chan w') = None.
Proof.
  pose proof (finalizeSession_spec "b" sample_sessions) as H.
  assert (sessions (reg sample_sessions) !! "b"
          = Some {| oid := 1; token := "b"; state := VObj [] |}) as Hb.
  { unfold sample_sessions. simpl.
    rewrite lookup_insert_ne by discriminate. apply lookup_insert_eq. }
  rewrite Hb in H. simpl in H.
  destruct H as (w' & Heq & _ & Ha & Hnone & Hkeep).
  exists {| oid := 1; token := "b"; state := VObj [] |}, w'.
  split; [exact Hb|]. split; [exact Heq|]. split; [exact Ha|].
  split; [apply Hkeep; discriminate|exact Hnone].
Defined.

End SessionSpec.

(** ** Error construction *)
Module ErrorSpec.
Import JS Protocol Channel.

Section Policy.
Variable STATUS_CODES : Z -> option string.

Lemma logged_logged w evs evs' :
  logged (logged w evs) evs' = logged w (evs ++ evs').
Proof. unfold logged, with_trace. simpl. by rewrite <-(assoc_L (++)). Qed.

Lemma emit_eq e w : emit e w = (Normal tt, logged w [e]).
Proof. reflexivity. Qed.

Lemma serialize_error callId message code :
  serialize "error"
    (VObj [("callId", callId); ("message", message); ("code", VNum code)])
  = Normal (VObj [("callback", callId);
                  ("error", VObj [("message", message); ("code", VNum code)])]).
Proof. reflexivity. Qed.

(** [error] writes one line to the console and sends one packet. *)
Lemma error_eq code callId err httpCode w :
  error STATUS_CODES code callId err httpCode w
  = (Normal tt, logged w (error_events STATUS_CODES code callId err httpCode (chan w))).
Proof.
  unfold error, error_events.
  unfold mbind at 1, M_bind, read. cbn beta iota.
  unfold mbind at 1, M_bind. rewrite emit_eq. cbn beta iota.
  rewrite serialize_error. unfold mbind, M_bind, lift.
  by rewrite emit_eq, logged_logged.
Qed.

(** C9. Every error [Channel.error] emits goes out with an [httpCode] chosen
    by precedence: the explicit [httpCode] argument, else the [httpCode] of
    the error, else the supplied [code], else 500.  The message the peer
    sees is the message of the underlying error when that [httpCode] is
    outside 500..599, and the status phrase (or ["Unknown error"]) when it
    is inside, or when there is no underlying error.  In both cases one line
    with the full detail (the stack of the error) goes to the console, and
    the packet sent holds the message and the supplied code only. *)
Theorem error_policy code callId err httpCode w :
  exists http message line,
    error STATUS_CODES code callId err httpCode w
    = (Normal tt,
       logged w [ConsoleError line;
                 Send (error_packet callId message (default 500 code))
                   (Some http)]) /\
    http = first_code [httpCode; err ≫= err_httpCode]
             (match code with Some c => c | None => 500 end) /\
    (forall e, err = Some e -> http < 500 \/ 599 < http ->
       message = err_message e) /\
    (forall e, err = Some e -> 500 <= http <= 599 ->
       message = status_phrase (STATUS_CODES http)) /\
    (err = None -> message = status_phrase (STATUS_CODES http)) /\
    (forall e, err = Some e ->
       line = ip (chan w) +:+ tab +:+ req_method (chan w) +:+ tab
                +:+ req_url (chan w) +:+ tab +:+ pretty http +:+ tab
                +:+ pretty (default 500 code) +:+ tab +:+ err_stack e).
Proof.
  do 3 eexists. split; [apply error_eq|].
  set (http := or_code _ _).
  split.
  { unfold http, or_code, first_code.
    destruct httpCode as [h|]; [destruct (h =? 0)|..]; try done;
      destruct (err ≫= err_httpCode) as [h'|]; try destruct (h' =? 0);
      by destruct code. }
  split.
  { intros e -> Hout.
    assert ((http <? 500) || (599 <? http) = true) as ->; [|done].
    apply orb_true_iff. destruct Hout; [left|right]; lia. }
  split.
  { intros e -> Hin.
    assert ((http <? 500) || (599 <? http) = false) as ->; [|done].
    apply orb_false_iff. split; lia. }
  split; [by intros ->|]. by intros e ->.
Qed.

End Policy.

Lemma error_policy_witness :
  let e := new_Error sample_stack "Packet structure error" in
  exists line,
    error sample_STATUS_CODES (Some 400) (VNum 1) (Some e) None new_world
    = (Normal tt,
       logged new_world
         [ConsoleError line;
          Send (error_packet (VNum 1) "Packet structure error" 400) (Some 400)]).
Proof.
  intros e.
  destruct (error_policy sample_STATUS_CODES (Some 400) (VNum 1) (Some e) None
              new_world) as (http & message & line & Heq & Hhttp & Hpass & _).
  exists line. rewrite Heq. simpl in Hhttp. subst http.
  rewrite (Hpass e eq_refl); [reflexivity|]. left. reflexivity.
Defined.

End ErrorSpec.

(** ** Dispatch, calls and streams *)
Module ChannelSpec.
Import JS Protocol Channel ErrorSpec.
#[local] Open Scope list_scope.

Section Coordinator.
Variable STATUS_CODES : Z -> option string.
Variable jsonParse : string -> value.
Variable getMethod : value -> value -> value -> option procedure.
Variable Chunk_decode : string -> js_error + (Z * string).
Variable error_stack : string -> string.

Lemma bind_eq {A B} (m : M A) (k : A -> M B) w :
  (m ≫= k) w
  = match m w with
    | (Normal a, w') => k a w'
    | (Throw e, w') => (Throw e, w')
    | (Inherited n, w') => (Inherited n, w')
    end.
Proof. reflexivity. Qed.

Lemma logged_nil w : trace (chan (logged w [])) = trace (chan w).
Proof. simpl. by rewrite app_nil_r. Qed.

Lemma trace_logged w evs : trace (chan (logged w evs)) = trace (chan w) ++ evs.
Proof. reflexivity. Qed.

Lemma chan_logged_ip w evs : ip (chan (logged w evs)) = ip (chan w).
Proof. reflexivity. Qed.

Lemma session_logged w evs : session (chan (logged w evs)) = session (chan w).
Proof. reflexivity. Qed.

Lemma error_events_logged code callId err httpCode w evs :
  error_events STATUS_CODES code callId err httpCode (chan (logged w evs))
  = error_events STATUS_CODES code callId err httpCode (chan w).
Proof. reflexivity. Qed.

(** Evaluating a method: binds, traces and calls of [error]. *)
Ltac run :=
  repeat (rewrite ?bind_eq, ?emit_eq, ?error_eq, ?logged_logged,
            ?error_events_logged, ?session_logged;
          unfold read, mret, M_ret, lift, throw; cbn beta iota).

(** The three segments of [rpc], each as the events it adds. *)
Lemma rpc_eq callId iface ver method args w :
  rpc STATUS_CODES getMethod callId iface ver method args w
  = match getMethod iface ver method with
    | None =>
        (Normal None,
         logged w (GetMethod iface ver method
                   :: error_events STATUS_CODES (Some 404) callId None None (chan w)))
    | Some proc =>
        if negb (bool_decide (is_Some (session (chan w))))
           && negb (String.eqb (access proc) "public")
        then
          (Normal None,
           logged w (GetMethod iface ver method
                     :: error_events STATUS_CODES (Some 403) callId None None (chan w)))
        else
          (Normal (Some (AwaitEnter proc
                           {| ctx_session := session (chan w);
                              ctx_state := VObj []; accountId := VUndef |}
                           callId iface method args)),
           logged w [GetMethod iface ver method; Enter proc])
    end.
Proof.
  unfold rpc. run. destruct (getMethod iface ver method) as [proc|]; run; [|done].
  by destruct (negb _ && negb _); run.
Qed.

Lemma rpc_entered_eq proc context callId iface method args o w :
  rpc_entered STATUS_CODES proc context callId iface method args o w
  = match o with
    | Rejected _ =>
        (Normal None,
         logged w (error_events STATUS_CODES (Some 503) callId None None (chan w)))
    | Fulfilled _ =>
        (Normal (Some (AwaitInvoke proc callId iface method)),
         logged w
           [Invoke proc
              {| ctx_session := ctx_session context;
                 ctx_state := ctx_state context;
                 accountId := match session (chan w) with
                              | Some x => get_opt (state x) "accountId"
                              | None => VUndef
                              end |} args])
    end.
Proof. unfold rpc_entered. destruct o; by run. Qed.

Lemma serialize_callback callId r :
  serialize "callback" (VObj [("callId", callId); ("result", r)])
  = Normal (VObj [("callback", callId); ("result", r)]).
Proof. reflexivity. Qed.

Lemma rpc_invoked_eq proc callId iface method o w :
  exists r evs,
    rpc_invoked STATUS_CODES proc callId iface method o w = (r, logged w evs) /\
    count is_leave evs = 1%nat /\
    count is_enter evs = 0%nat /\ count is_invoke evs = 0%nat.
Proof.
  unfold rpc_invoked. destruct o as [[r|e]|[e|]]; run.
  - rewrite serialize_callback. run. by do 2 eexists.
  - by do 2 eexists.
  - by do 2 eexists.
  - by do 2 eexists.
Qed.

Lemma count_app p evs evs' : count p (evs ++ evs') = (count p evs + count p evs')%nat.
Proof. unfold count. by rewrite List.filter_app, length_app. Qed.

Lemma count_cons p e evs :
  count p (e :: evs) = ((if p e then 1 else 0) + count p evs)%nat.
Proof. unfold count. simpl. by destruct (p e). Qed.

Lemma count_error_events p code callId err httpCode c :
  p (ConsoleError EmptyString) = false -> p (Send VUndef None) = false ->
  (forall l, p (ConsoleError l) = p (ConsoleError EmptyString)) ->
  (forall v h, p (Send v h) = p (Send VUndef None)) ->
  count p (error_events STATUS_CODES code callId err httpCode c) = 0%nat.
Proof.
  intros H1 H2 H3 H4. unfold error_events, count. simpl.
  by rewrite H3, H1, H4, H2.
Qed.

(** C5. On every path of [rpc] (whatever the registry answers, whatever the
    session and the access level, and however [enter()] and [invoke()]
    settle: a plain result, a returned [Error], a thrown [Error] with or
    without the timeout message, a thrown [null]) there is at most one call
    of [enter()]; when [enter()] succeeds it is followed by exactly one
    [invoke()] and exactly one [leave()]; when [enter()] rejects, the
    procedure is not invoked, [leave()] is not called, and the call ends
    with the 503 error packet. *)
Theorem rpc_enter_leave_paired callId iface ver method args entered invoked w :
  exists r evs,
    rpc_run STATUS_CODES getMethod callId iface ver method args entered invoked w
    = (r, logged w evs) /\
    (count is_enter evs <= 1)%nat /\
    match entered with
    | Fulfilled _ =>
        count is_leave evs = count is_enter evs /\
        count is_invoke evs = count is_enter evs
    | Rejected _ =>
        count is_leave evs = 0%nat /\ count is_invoke evs = 0%nat /\
        (count is_enter evs = 0%nat \/
         exists proc line,
           evs = [GetMethod iface ver method; Enter proc; ConsoleError line;
                  Send (error_packet callId (status_phrase (STATUS_CODES 503)) 503)
                    (Some 503)])
    end.
Proof.
  unfold rpc_run. rewrite bind_eq, rpc_eq.
  destruct (getMethod iface ver method) as [proc|].
  2:{ do 2 eexists. split; [done|].
      rewrite !count_cons, !count_error_events by done.
      destruct entered; simpl; auto. }
  destruct (negb _ && negb _).
  { do 2 eexists. split; [done|].
    rewrite !count_cons, !count_error_events by done.
    destruct entered; simpl; auto. }
  rewrite bind_eq, rpc_entered_eq. destruct entered as [[]|t].
  - destruct (rpc_invoked_eq proc callId iface method invoked
                (logged (logged w [GetMethod iface ver method; Enter proc])
                   [Invoke proc
                      {| ctx_session := session (chan w); ctx_state := VObj [];
                         accountId := match session (chan w) with
                                      | Some x => get_opt (state x) "accountId"
                                      | None => VUndef
                                      end |} args]))
      as (r & evs & Heq & Hl & He & Hi).
    cbn [ctx_session ctx_state]. rewrite session_logged.
    rewrite Heq, !logged_logged. do 2 eexists. split; [done|].
    rewrite !count_app, Hl, He, Hi. by compute.
  - run. do 2 eexists. split; [done|].
    split; [by compute|]. do 2 (split; [by compute|]).
    right. by do 2 eexists.
Qed.

(** A timeout of the procedure goes out as 408, with its message, and the
    gate is released after the packet is sent. *)
Lemma rpc_invoked_timeout proc callId iface method e w :
  err_message e = "Timeout reached" ->
  exists line,
    rpc_invoked STATUS_CODES proc callId iface method (Rejected (ThrownError e)) w
    = (Normal tt,
       logged w [ConsoleError line;
                 Send (error_packet callId "Timeout reached" 408) (Some 408);
                 Leave proc]).
Proof.
  intros He. unfold rpc_invoked. rewrite He. run. by eexists.
Qed.

(** [resumeCookieSession] completes normally; before its [await] it may
    rebind the channel to a registered session, and the only thing it asks
    of a collaborator is to read a session. *)
Lemma resumeCookieSession_eq w :
  exists t s evs,
    resumeCookieSession w
    = (Normal t, logged {| reg := reg w; chan := with_session s (chan w) |} evs) /\
    ((t = None /\ evs = []) \/
     exists token, t = Some (AwaitReadSession token) /\ evs = [ReadSession token]).
Proof.
  unfold resumeCookieSession. run.
  destruct (cookie_token (chan w)) as [token|].
  2:{ exists None, (session (chan w)), []. split; [|by left].
      destruct w as [r []]. unfold logged, with_trace, with_session. simpl.
      by rewrite app_nil_r. }
  destruct (String.eqb token EmptyString).
  { exists None, (session (chan w)), []. split; [|by left].
    destruct w as [r []]. unfold logged, with_trace, with_session. simpl.
    by rewrite app_nil_r. }
  unfold restoreSession. run.
  destruct (sessions (reg w) !! token) as [s|]; run.
  - exists None, (Some s), []. split; [|by left].
    unfold set_chan. run.
    destruct w as [r []]. unfold logged, with_trace, with_session. simpl.
    by rewrite app_nil_r.
  - exists (Some (AwaitReadSession token)), (session (chan w)), [ReadSession token].
    split; [|right; by eexists].
    by destruct w as [r []].
Qed.

(** C4. [callHandler] tests the decoded call before anything is resolved:
    when [callId] is zero, [iface] or [method] is empty, or [args] is null
    (or any of the four is falsy in another way), the peer is sent the 400
    packet with the message ["Packet structure error"] (which, 400 being
    outside 500..599, goes out as written), and neither the method registry
    nor a procedure is touched: no [getMethod], no [enter()], no [invoke()],
    and nothing of [rpc] is left pending. *)
Theorem callHandler_structure_error callId iface method ver args w :
  truthy callId = false \/ truthy iface = false \/ truthy method = false
    \/ truthy args = false ->
  exists tasks w' evs line,
    callHandler STATUS_CODES getMethod error_stack callId iface method ver args w
    = (Normal tasks, w') /\
    trace (chan w')
    = trace (chan w) ++ evs
        ++ [ConsoleError line;
            Send (error_packet callId "Packet structure error" 400) (Some 400)] /\
    count is_getMethod evs = 0%nat /\ count is_enter evs = 0%nat /\
    count is_invoke evs = 0%nat /\
    (forall t, In t tasks -> exists token, t = AwaitReadSession token).
Proof.
  intros Hbad. unfold callHandler. rewrite bind_eq.
  destruct (resumeCookieSession_eq w) as (t & s & evs & -> & Ht).
  assert (negb (truthy callId) || negb (truthy iface) || negb (truthy method)
          || negb (truthy args) = true) as ->.
  { destruct Hbad as [-> | [-> | [-> | ->]]]; simpl; by rewrite ?orb_true_r. }
  run. eexists (option_list t), _, evs, _. split; [done|].
  split.
  { rewrite trace_logged. cbn [chan trace with_session]. reflexivity. }
  destruct Ht as [[-> ->]|(token & -> & ->)].
  - do 3 (split; [done|]). intros t [].
  - do 3 (split; [done|]). intros t [<-|[]]. by eexists.
Qed.

(** When the four fields are truthy the call goes on to [rpc]. *)
Lemma callHandler_proceeds callId iface method ver args w :
  truthy callId && truthy iface && truthy method && truthy args = true ->
  callHandler STATUS_CODES getMethod error_stack callId iface method ver args w
  = (t1 ← resumeCookieSession;
     t2 ← rpc STATUS_CODES getMethod callId iface ver method args;
     mret (option_list t1 ++ option_list t2)) w.
Proof.
  intros [[[H1 H2]%andb_prop H3]%andb_prop H4]%andb_prop.
  unfold callHandler. by rewrite H1, H2, H3, H4.
Qed.

(** C3, as the code has it. A text frame that is JSON but that the codec
    decodes to [null] makes [message] raise a [TypeError] (it destructures
    the [null]); nothing is sent to the peer and the channel is left as it
    was. *)
Theorem message_null_decode_throws msg w :
  String.eqb msg "{}" = false ->
  truthy (jsonParse msg) = true ->
  deserialize (jsonParse msg) = Normal None ->
  message STATUS_CODES jsonParse error_stack msg w = (Throw TypeError, w).
Proof.
  intros Hmsg Hjson Hnull. unfold message. rewrite Hmsg, Hjson.
  cbn [negb]. unfold mbind, M_bind, lift. by rewrite Hnull.
Qed.

(** A frame that is not JSON is answered with code 500; being inside
    500..599, the packet carries the status phrase, not the message of the
    error. *)
Lemma message_not_json msg w :
  String.eqb msg "{}" = false ->
  truthy (jsonParse msg) = false ->
  exists line,
    message STATUS_CODES jsonParse error_stack msg w
    = (Normal None,
       logged w [ConsoleError line;
                 Send (error_packet VUndef (status_phrase (STATUS_CODES 500)) 500)
                   (Some 500)]).
Proof.
  intros Hmsg Hjson. unfold message. rewrite Hmsg, Hjson.
  cbn [negb]. run. by eexists.
Qed.

(** *** The stream table *)

Lemma table_get_set k r t :
  same_value_zero k k = true -> table_get k (table_set k r t) = Some r.
Proof.
  intros Hk. induction t as [|[k' r'] t IH]; simpl.
  - by rewrite Hk.
  - destruct (same_value_zero k' k) eqn:Hk'; simpl; by rewrite Hk'.
Qed.

Lemma table_get_delete k t : table_get k (table_delete k t) = None.
Proof.
  induction t as [|[k' r'] t IH]; [done|]. unfold table_delete in *. simpl.
  destruct (same_value_zero k' k) eqn:Hk'; simpl; [done|]. by rewrite Hk'.
Qed.

Lemma streamHandler_open streamId name size status w :
  truthy name && is_string name && isSafeInteger size = true ->
  table_get streamId (streams (chan w)) = None ->
  streamHandler STATUS_CODES error_stack streamId name size status w
  = (Normal None,
     with_table w
       (table_set streamId
          {| r_streamId := streamId; r_name := name; r_size := size; r_ops := [] |}
          (streams (chan w)))).
Proof.
  intros Hinit Hfree. unfold streamHandler. run. by rewrite Hinit, Hfree.
Qed.

Lemma streamHandler_reopen streamId name size status r w :
  truthy name && is_string name && isSafeInteger size = true ->
  table_get streamId (streams (chan w)) = Some r ->
  streamHandler STATUS_CODES error_stack streamId name size status w
  = (Normal None,
     logged w
       (error_events STATUS_CODES (Some 400) streamId
          (Some (new_Error error_stack
                   ("Stream " +:+ to_string name +:+ " is already initialized")))
          None (chan w))).
Proof.
  intros Hinit Hhas. unfold streamHandler. run. rewrite Hinit, Hhas. by run.
Qed.

Lemma streamHandler_end streamId name size r w :
  truthy name && is_string name && isSafeInteger size = false ->
  table_get streamId (streams (chan w)) = Some r ->
  streamHandler STATUS_CODES error_stack streamId name size (VStr "end") w
  = (Normal (Some (AwaitClose streamId)),
     with_table w
       (table_set streamId
          {| r_streamId := r_streamId r; r_name := r_name r; r_size := r_size r;
             r_ops := r_ops r ++ [Close] |}
          (streams (chan w)))).
Proof.
  intros Hinit Hhas. unfold streamHandler. run. by rewrite Hinit, Hhas.
Qed.

Lemma binary_push data streamId payload r w :
  Chunk_decode data = inr (streamId, payload) ->
  table_get (VNum streamId) (streams (chan w)) = Some r ->
  binary STATUS_CODES Chunk_decode error_stack data w
  = (Normal tt,
     with_table w
       (table_set (VNum streamId)
          {| r_streamId := r_streamId r; r_name := r_name r; r_size := r_size r;
             r_ops := r_ops r ++ [Push payload] |}
          (streams (chan w)))).
Proof.
  intros Hdec Hhas. unfold binary. rewrite Hdec. run. by rewrite Hhas.
Qed.

Lemma binary_unknown data streamId payload w :
  Chunk_decode data = inr (streamId, payload) ->
  table_get (VNum streamId) (streams (chan w)) = None ->
  binary STATUS_CODES Chunk_decode error_stack data w
  = (Normal tt,
     logged w
       (error_events STATUS_CODES (Some 400) (VNum streamId)
          (Some (new_Error error_stack
                   ("Stream " +:+ pretty streamId +:+ " is not initialized")))
          None (chan w))).
Proof.
  intros Hdec Hfree. unfold binary. rewrite Hdec. run. rewrite Hfree. by run.
Qed.

(** C8. The life of an inbound stream on one channel.  With no entry for
    [id] in the table: (1) a stream packet with a non-empty string [name]
    and a non-negative safe integer [size] registers a stream; (2) a chunk
    for [id] is then pushed into it, and nothing is sent; (3) a second
    packet that initialises [id] is answered with the 400 packet
    ["Stream <name> is already initialized"] and changes no stream; (4) a
    packet with status ["end"] and no valid initialisation closes the
    stream, and when the close has completed the entry is gone; (5) a chunk
    for [id] is then answered with the 400 packet
    ["Stream <id> is not initialized"]. *)
Theorem stream_lifecycle id n size status n' size' status' name'' size''
    frame payload w :
  n <> EmptyString -> 0 <= size <= MAX_SAFE_INTEGER ->
  n' <> EmptyString -> isSafeInteger (VNum size') = true ->
  truthy name'' && is_string name'' && isSafeInteger size'' = false ->
  table_get (VNum id) (streams (chan w)) = None ->
  Chunk_decode frame = inr (id, payload) ->
  let opened :=
    {| r_streamId := VNum id; r_name := VStr n; r_size := VNum size;
       r_ops := [] |} in
  let pushed :=
    {| r_streamId := VNum id; r_name := VStr n; r_size := VNum size;
       r_ops := [Push payload] |} in
  let closed :=
    {| r_streamId := VNum id; r_name := VStr n; r_size := VNum size;
       r_ops := [Push payload; Close] |} in
  exists w1 w2 w3 w4 w5 w6 line3 line6,
    streamHandler STATUS_CODES error_stack (VNum id) (VStr n) (VNum size) status w
    = (Normal None, w1) /\
    table_get (VNum id) (streams (chan w1)) = Some opened /\
    binary STATUS_CODES Chunk_decode error_stack frame w1 = (Normal tt, w2) /\
    table_get (VNum id) (streams (chan w2)) = Some pushed /\
    trace (chan w2) = trace (chan w) /\
    streamHandler STATUS_CODES error_stack (VNum id) (VStr n') (VNum size') status' w2
    = (Normal None, w3) /\
    streams (chan w3) = streams (chan w2) /\
    trace (chan w3)
    = trace (chan w2)
        ++ [ConsoleError line3;
            Send (error_packet (VNum id)
                    ("Stream " +:+ n' +:+ " is already initialized") 400)
              (Some 400)] /\
    streamHandler STATUS_CODES error_stack (VNum id) name'' size'' (VStr "end") w3
    = (Normal (Some (AwaitClose (VNum id))), w4) /\
    table_get (VNum id) (streams (chan w4)) = Some closed /\
    streamHandler_settled (VNum id) (Fulfilled tt) w4 = (Normal tt, w5) /\
    table_get (VNum id) (streams (chan w5)) = None /\
    binary STATUS_CODES Chunk_decode error_stack frame w5 = (Normal tt, w6) /\
    trace (chan w6)
    = trace (chan w5)
        ++ [ConsoleError line6;
            Send (error_packet (VNum id)
                    ("Stream " +:+ pretty id +:+ " is not initialized") 400)
              (Some 400)].
Proof.
  intros Hn Hsize Hn' Hsize' Hend Hfree Hdec opened pushed closed.
  assert (same_value_zero (VNum id) (VNum id) = true) as Hid
    by (simpl; lia).
  assert (truthy (VStr n) && is_string (VStr n) && isSafeInteger (VNum size) = true)
    as Hinit.
  { simpl. apply String.eqb_neq in Hn. rewrite Hn. simpl.
    unfold MAX_SAFE_INTEGER in *. apply andb_true_iff. split; lia. }
  assert (truthy (VStr n') && is_string (VStr n') && isSafeInteger (VNum size') = true)
    as Hinit'.
  { cbn [truthy is_string]. apply String.eqb_neq in Hn'. by rewrite Hn', Hsize'. }
  do 8 eexists.
  split; [by apply streamHandler_open|].
  split; [by apply table_get_set|].
  split; [apply (binary_push frame id payload opened); [done|by apply table_get_set]|].
  split; [by apply table_get_set|].
  split; [done|].
  split; [apply (streamHandler_reopen _ _ _ _ pushed); [done|by apply table_get_set]|].
  split; [done|].
  split; [reflexivity|].
  split; [apply (streamHandler_end _ _ _ pushed); [done|by apply table_get_set]|].
  split; [by apply table_get_set|].
  split; [reflexivity|].
  split; [apply table_get_delete|].
  split; [apply (binary_unknown frame id payload); [done|apply table_get_delete]|].
  reflexivity.
Qed.

End Coordinator.

Lemma message_null_decode_throws_witness :
  String.eqb "{ }" "{}" = false /\
  truthy (sample_jsonParse "{ }") = true /\
  deserialize (sample_jsonParse "{ }") = Normal None /\
  message sample_STATUS_CODES sample_jsonParse sample_stack "{ }" new_world
  = (Throw TypeError, new_world).
Proof.
  do 3 (split; [reflexivity|]).
  apply (message_null_decode_throws sample_STATUS_CODES sample_jsonParse
           sample_stack "{ }" new_world); reflexivity.
Defined.

Lemma callHandler_structure_error_witness :
  truthy (VNum 0) = false /\
  exists tasks w' evs line,
    callHandler sample_STATUS_CODES sample_getMethod sample_stack
      (VNum 0) (VStr "auth") (VStr "signIn") (VNum 1) (VObj []) new_world
    = (Normal tasks, w') /\
    trace (chan w')
    = evs ++ [ConsoleError line;
              Send (error_packet (VNum 0) "Packet structure error" 400)
                (Some 400)] /\
    count is_getMethod evs = 0%nat.
Proof.
  split; [reflexivity|].
  destruct (callHandler_structure_error sample_STATUS_CODES sample_getMethod
              sample_stack (VNum 0) (VStr "auth") (VStr "signIn") (VNum 1)
              (VObj []) new_world (or_introl eq_refl))
    as (tasks & w' & evs & line & Heq & Htrace & Hget & _).
  exists tasks, w', evs, line. split; [exact Heq|]. split; [exact Htrace|exact Hget].
Defined.

Lemma stream_lifecycle_witness :
  "f" <> EmptyString /\ 0 <= 1000 <= MAX_SAFE_INTEGER /\
  table_get (VNum 1) (streams (chan new_world)) = None /\
  sample_Chunk_decode "chunk" = inr (1, "chunk") /\
  exists w1 w5 w6 line,
    streamHandler sample_STATUS_CODES sample_stack
      (VNum 1) (VStr "f") (VNum 1000) VUndef new_world = (Normal None, w1) /\
    table_get (VNum 1) (streams (chan w5)) = None /\
    binary sample_STATUS_CODES sample_Chunk_decode sample_stack "chunk" w5
    = (Normal tt, w6) /\
    trace (chan w6)
    = trace (chan w5)
        ++ [ConsoleError line;
            Send (error_packet (VNum 1) "Stream 1 is not initialized" 400)
              (Some 400)].
Proof.
  assert ("f" <> EmptyString) as Hf by discriminate.
  assert (0 <= 1000 <= MAX_SAFE_INTEGER) as Hsize by (by compute).
  do 4 (split; [done|]).
  destruct (stream_lifecycle sample_STATUS_CODES sample_Chunk_decode sample_stack
              1 "f" 1000 VUndef "f" 1000 VUndef VUndef VUndef "chunk" "chunk"
              new_world Hf Hsize Hf eq_refl eq_refl eq_refl eq_refl)
    as (w1 & w2 & w3 & w4 & w5 & w6 & line3 & line6 & H1 & _ & _ & _ & _ & _
        & _ & _ & _ & _ & _ & H5 & H6 & Ht).
  exists w1, w5, w6, line6. by repeat split.
Defined.

End ChannelSpec.

(** ** More on the codec *)
Module CodecSpec.
Import JS Protocol JSFacts ProtocolSpec.
#[local] Open Scope list_scope.

Lemma table_missing {A} (own : list (string * A)) name :
  ~ In name (List.map fst own) -> ~ In name object_prototype ->
  table own name = Missing.
Proof.
  intros Hown Hproto. unfold table.
  assert (List.find (fun e => String.eqb (fst e) name) own = None) as ->.
  { induction own as [|[k f] own IH]; [done|]. simpl in *.
    destruct (String.eqb_spec k name) as [->|_]; [by destruct Hown; left|].
    apply IH. intros Hin. apply Hown. by right. }
  destruct (List.existsb (String.eqb name) object_prototype) eqn:Hex; [|done].
  apply List.existsb_exists in Hex as (x & Hx & ->%String.eqb_eq). done.
Qed.

Lemma deserializer_call_eq p :
  nullish p = false ->
  exists iface method ver args,
    deserializer_call p = Normal (CallData (get_opt p "call") iface method ver args).
Proof.
  intros Hp. unfold deserializer_call. rewrite get_normal, bind_normal by done.
  unfold first_key, keys, rest. simpl nullish. cbn iota.
  rewrite ?bind_normal. unfold mret, completion_ret. rewrite ?bind_normal.
  rewrite get_normal, ?bind_normal by done. by do 4 eexists.
Qed.

Lemma deserializer_event_eq p :
  nullish p = false ->
  exists iface eventName args,
    deserializer_event p = Normal (EventData (get_opt p "event") iface eventName args).
Proof.
  intros Hp. unfold deserializer_event. rewrite get_normal, bind_normal by done.
  unfold first_key, keys, rest. simpl nullish. cbn iota.
  rewrite ?bind_normal. unfold mret, completion_ret. rewrite ?bind_normal.
  rewrite get_normal, ?bind_normal by done. by do 3 eexists.
Qed.

Lemma deserializer_callback_eq p :
  nullish p = false ->
  deserializer_callback p
  = Normal (CallbackData (get_opt p "callback") (get_opt p "result")).
Proof. intros Hp. unfold deserializer_callback. by rewrite !get_normal. Qed.

Lemma deserializer_stream_eq p :
  nullish p = false ->
  deserializer_stream p
  = Normal (StreamData (get_opt p "stream") (get_opt p "name") (get_opt p "size")
              (get_opt p "status")).
Proof. intros Hp. unfold deserializer_stream. by rewrite !get_normal. Qed.

Lemma deserializer_error_eq p :
  nullish p = false ->
  deserializer_error p
  = Normal (ErrorData (get_opt p "callback")
              (get_opt (get_opt p "error") "message")
              (get_opt (get_opt p "error") "code")).
Proof. intros Hp. unfold deserializer_error. by rewrite !get_normal. Qed.

(** X1. [serialize] answers [null], and does not raise, for every type
    that is neither one of the five kinds nor the name of a member of
    [Object.prototype], whatever the data (also [null]). *)
Theorem serialize_unknown_kind type d :
  ~ In type ["call"; "callback"; "event"; "stream"; "error"] ->
  ~ In type object_prototype ->
  serialize type d = Normal VNull.
Proof.
  intros Hkind Hproto. unfold serialize, serializer.
  by rewrite table_missing.
Qed.

Lemma serialize_unknown_kind_witness :
  serialize "unknown" VNull = Normal VNull.
Proof.
  apply serialize_unknown_kind.
  - intros [H|[H|[H|[H|[H|[]]]]]]; discriminate H.
  - unfold object_prototype. intros H.
    repeat (destruct H as [H|H]; [discriminate H|]). destruct H.
Defined.

(** X2. An object with a truthy [error] field always decodes as kind
    [error], whatever its other keys and their order; the id is read from
    its [callback] field. *)
Theorem deserialize_error_overrides packet :
  nullish packet = false ->
  truthy (get_opt packet "error") = true ->
  deserialize packet
  = Normal (Some ("error",
      ErrorData (get_opt packet "callback")
        (get_opt (get_opt packet "error") "message")
        (get_opt (get_opt packet "error") "code"))).
Proof.
  intros Hp Herr. unfold deserialize.
  rewrite get_normal, bind_normal, Herr by done.
  unfold mret, completion_ret. rewrite bind_normal. cbn [truthy negb to_string].
  change (deserializer "error") with (Own deserializer_error).
  unfold call_member. by rewrite deserializer_error_eq.
Qed.

Lemma deserialize_error_overrides_witness :
  deserialize (VObj [("call", VNum 1); ("auth/signIn", VObj []);
                     ("error", VObj [("message", VStr "no"); ("code", VNum 400)])])
  = Normal (Some ("error", ErrorData VUndef (VStr "no") (VNum 400))).
Proof.
  exact (deserialize_error_overrides
           (VObj [("call", VNum 1); ("auth/signIn", VObj []);
                  ("error", VObj [("message", VStr "no"); ("code", VNum 400)])])
           eq_refl eq_refl).
Defined.

Lemma deserialize_shape packet t d :
  deserialize packet = Normal (Some (t, d)) ->
  match d with
  | CallData _ _ _ _ _ => t = "call"
  | CallbackData _ _ => t = "callback"
  | EventData _ _ _ _ => t = "event"
  | StreamData _ _ _ _ => t = "stream"
  | ErrorData _ _ _ => t = "error"
  end.
Proof.
  unfold deserialize, get.
  destruct (nullish packet) eqn:Hp; [discriminate|].
  rewrite bind_normal.
  destruct (truthy (default VUndef (assoc "error" (own_fields packet)))).
  - unfold mret, completion_ret. rewrite bind_normal. cbn [truthy negb to_string].
    change (deserializer "error") with (Own deserializer_error).
    unfold call_member. rewrite deserializer_error_eq by done.
    by intros [= <- <-].
  - unfold first_key, keys. rewrite Hp, ?bind_normal.
    unfold mret, completion_ret. rewrite ?bind_normal. unfold element.
    destruct (List.map fst (own_fields packet) !! 0%nat) as [k|]; [|discriminate].
    destruct (negb (truthy (VStr k))); [discriminate|].
    cbn [to_string]. unfold deserializer, table. cbn [List.find fst snd].
    destruct (String.eqb_spec "call" k) as [<-|_].
    { cbn [snd fst]. unfold call_member.
      destruct (deserializer_call_eq packet Hp) as (i & m & v & a & ->).
      by intros [= <- <-]. }
    destruct (String.eqb_spec "callback" k) as [<-|_].
    { cbn [snd fst]. unfold call_member. rewrite deserializer_callback_eq by done.
      by intros [= <- <-]. }
    destruct (String.eqb_spec "event" k) as [<-|_].
    { cbn [snd fst]. unfold call_member.
      destruct (deserializer_event_eq packet Hp) as (i & n & a & ->).
      by intros [= <- <-]. }
    destruct (String.eqb_spec "stream" k) as [<-|_].
    { cbn [snd fst]. unfold call_member. rewrite deserializer_stream_eq by done.
      by intros [= <- <-]. }
    destruct (String.eqb_spec "error" k) as [<-|_].
    { cbn [snd fst]. unfold call_member. rewrite deserializer_error_eq by done.
      by intros [= <- <-]. }
    unfold call_member.
    destruct (List.existsb (String.eqb k) object_prototype); [|discriminate].
    by destruct (String.eqb k "__proto__").
Qed.

Lemma deserialize_truthy packet x :
  deserialize packet = Normal (Some x) -> truthy packet = true.
Proof.
  by destruct packet as [| |[]|z| |[|c r]| |].
Qed.



(** X4. The first key decides: an object whose first key is the name of a
    kind, and whose [error] field is missing or falsy, decodes to that kind
    whatever else it holds or lacks; [deserialize] neither raises nor
    answers [null]. *)
Theorem deserialize_first_key_decides K v fields :
  truthy (get_opt (VObj ((kind_name K, v) :: fields)) "error") = false ->
  exists d,
    deserialize (VObj ((kind_name K, v) :: fields))
    = Normal (Some (kind_name K, d)).
Proof.
  intros Herr. unfold deserialize.
  rewrite get_normal, bind_normal, Herr by done.
  unfold first_key, keys. simpl nullish. cbn iota.
  rewrite ?bind_normal. unfold mret, completion_ret. rewrite ?bind_normal.
  cbn [own_fields List.map fst element lookup list_lookup].
  destruct K; cbn [kind_name truthy negb to_string String.eqb Ascii.eqb Bool.eqb].
  - change (deserializer "call") with (Own deserializer_call).
    unfold call_member.
    destruct (deserializer_call_eq (VObj (("call", v) :: fields)) eq_refl)
      as (i & m & ve & a & ->).
    by eexists.
  - change (deserializer "callback") with (Own deserializer_callback).
    unfold call_member. rewrite deserializer_callback_eq by done. by eexists.
  - change (deserializer "event") with (Own deserializer_event).
    unfold call_member.
    destruct (deserializer_event_eq (VObj (("event", v) :: fields)) eq_refl)
      as (i & n & a & ->).
    by eexists.
  - change (deserializer "stream") with (Own deserializer_stream).
    unfold call_member. rewrite deserializer_stream_eq by done. by eexists.
  - change (deserializer "error") with (Own deserializer_error).
    unfold call_member. rewrite deserializer_error_eq by done. by eexists.
Qed.

Lemma deserialize_first_key_decides_witness :
  exists d, deserialize (VObj [("call", VNum 1)]) = Normal (Some ("call", d)).
Proof. exact (deserialize_first_key_decides KCall (VNum 1) [] eq_refl). Defined.

(** X5. The routing key does not tell an interface name that ends in
    [.<number>] from an interface with a version: a call to interface
    ["i.v"] without a version is encoded exactly as a call to interface
    ["i"] with the version [v], and so decodes to interface ["i"],
    version [v]. *)
Theorem call_key_ambiguous c i (v : Z) m a :
  v <> 0 ->
  no_char "/" i = true -> no_char "." i = true -> no_char "/" m = true ->
  let dotted :=
    VObj [("callId", c); ("iface", VStr (i +:+ "." +:+ pretty v));
          ("method", VStr m); ("args", a)] in
  let versioned :=
    VObj [("callId", c); ("iface", VStr i); ("ver", VNum v);
          ("method", VStr m); ("args", a)] in
  serialize "call" dotted = serialize "call" versioned /\
  roundtrip KCall dotted
  = Normal (Some ("call", CallData c (VStr i) (VStr m) (VNum v) a)).
Proof.
  intros Hv Hi1 Hi2 Hm dotted versioned.
  assert (serialize "call" dotted
          = Normal (VObj [("call", c);
                          ((i +:+ String "." (pretty v)) +:+ String "/" m, a)]))
    as Hd.
  { unfold dotted. rewrite serialize_call by done. cbn [get_opt own_fields assoc
      String.eqb Ascii.eqb Bool.eqb default from_option id].
    unfold call_key. cbn [truthy to_string]. reflexivity. }
  assert (serialize "call" versioned
          = Normal (VObj [("call", c);
                          ((i +:+ String "." (pretty v)) +:+ String "/" m, a)]))
    as Hs.
  { unfold versioned. rewrite serialize_call by done. cbn [get_opt own_fields assoc
      String.eqb Ascii.eqb Bool.eqb default from_option id].
    by rewrite call_key_versioned. }
  split; [by rewrite Hd, Hs|].
  unfold roundtrip. cbn [kind_name]. rewrite Hd, bind_normal, deserialize_call.
  rewrite (split_two "/" (i +:+ String "." (pretty v)) m); last done.
  2:{ rewrite no_char_app, Hi1. simpl. by apply pretty_no_char. }
  simpl. rewrite (split_two "." i (pretty v)); [|done|by apply pretty_no_char].
  simpl. unfold parse_ver. simpl.
  by rewrite pretty_nonempty, parseInt_pretty.
Qed.

Lemma call_key_ambiguous_witness :
  serialize "call"
    (VObj [("callId", VNum 1); ("iface", VStr "auth.2");
           ("method", VStr "signIn"); ("args", VNull)])
  = serialize "call"
      (VObj [("callId", VNum 1); ("iface", VStr "auth"); ("ver", VNum 2);
             ("method", VStr "signIn"); ("args", VNull)]).
Proof.
  exact (proj1 (call_key_ambiguous (VNum 1) "auth" 2 "signIn" VNull
                  ltac:(discriminate) eq_refl eq_refl eq_refl)).
Defined.

End CodecSpec.

(** ** More on sessions *)
Module RegistrySpec.
Import JS Channel Facade SessionSpec.
#[local] Open Scope list_scope.

Lemma restoreSession_eq token w :
  restoreSession token w
  = match sessions (reg w) !! token with
    | Some s => (Normal true, {| reg := reg w; chan := with_session (Some s) (chan w) |})
    | None => (Normal false, w)
    end.
Proof.
  unfold restoreSession. destruct w as [[ss n] c]. simpl.
  unfold mbind, M_bind, read. simpl. by destruct (ss !! token).
Qed.

Lemma destroy_eq connection w :
  destroy connection w
  = (Normal tt,
     match session (chan w) with
     | Some s =>
         {| reg := {| sessions := delete (token s) (sessions (reg w));
                      next_oid := next_oid (reg w) |};
            chan := chan w |}
     | None => w
     end).
Proof.
  unfold destroy, Client_emit. destruct w as [[ss n] c]. simpl.
  unfold mbind, M_bind, read. simpl. by destruct (session c).
Qed.

Lemma run_session_op_snd connection op w :
  snd (run_session_op connection op w)
  = match op with
    | Initialize token data => snd (initializeSession token data w)
    | Finalize token => snd (finalizeSession token w)
    | Restore token => snd (restoreSession token w)
    | Destroy => snd (destroy connection w)
    end.
Proof.
  destruct op as [token data|token|token|]; cbn [run_session_op]; [| | |done];
    unfold mbind, M_bind.
  - by destruct (initializeSession token data w) as [[] ?].
  - by destruct (finalizeSession token w) as [[] ?].
  - by destruct (restoreSession token w) as [[] ?].
Qed.

(** X6. Every call that changes the sessions (initialize, finalize, restore
    on a client, destroy on its channel) keeps the registry in order, also
    when [initializeSession] raises on data that is not an object: each
    session is filed under its own token, and every session object, in the
    registry or bound to a channel (this one or any other), was allocated
    before the next one will be. *)
Theorem session_op_keeps_registry connection op w :
  registry_ok (reg w) -> bound_ok (reg w) (chan w) ->
  let w' := snd (run_session_op connection op w) in
  registry_ok (reg w') /\ bound_ok (reg w') (chan w') /\
  forall c, bound_ok (reg w) c -> bound_ok (reg w') c.
Proof.
  intros Hreg Hbound. unfold registry_ok, bound_ok in *.
  rewrite run_session_op_snd. destruct op as [token data|token|token|].
  - rewrite initializeSession_cases. cbv zeta.
    destruct (is_object (default_arg (VObj []) data));
      cbn [snd reg chan sessions next_oid session with_session].
    + split; [|split].
      * intros t s. destruct (decide (token = t)) as [<-|Hne].
        -- rewrite lookup_insert_eq. intros [= <-]. cbn. split; [done|lia].
        -- rewrite lookup_insert_ne by done. intros Hs.
           assert (sessions (reg w) !! t = Some s) as Hs'.
           { destruct (session (chan w)); [|done].
             by apply lookup_delete_Some in Hs as [_ Hs]. }
           destruct (Hreg t s Hs'). split; [done|lia].
      * intros s [= <-]. cbn. lia.
      * intros c Hc s Hs. specialize (Hc s Hs). lia.
    + split; [|split; [done|done]].
      intros t s Hs. apply Hreg.
      destruct (session (chan w)); [|done].
      by apply lookup_delete_Some in Hs as [_ Hs].
  - rewrite finalizeSession_eq.
    destruct (sessions (reg w) !! token) as [named|];
      [|cbn [snd]; split; [exact Hreg|split; [exact Hbound|auto]]].
    destruct (session (chan w)) as [current|] eqn:Hc.
    2:{ cbn [snd]. split; [exact Hreg|]. split; [|auto].
        intros s Hs. rewrite Hc in Hs. discriminate Hs. }
    cbn [snd reg chan sessions next_oid session with_session].
    split; [|split; [done|done]].
    intros t s [_ Hs]%lookup_delete_Some. by apply Hreg.
  - rewrite restoreSession_eq.
    destruct (sessions (reg w) !! token) as [s|] eqn:Hs;
      [|cbn [snd]; split; [exact Hreg|split; [exact Hbound|auto]]].
    cbn [snd reg chan sessions next_oid session with_session].
    split; [done|]. split; [|done].
    intros s' [= <-]. by destruct (Hreg token s Hs).
  - rewrite destroy_eq.
    destruct (session (chan w)) as [current|] eqn:Hc.
    2:{ cbn [snd]. split; [exact Hreg|]. split; [|auto].
        intros s Hs. rewrite Hc in Hs. discriminate Hs. }
    cbn [snd reg chan sessions next_oid session].
    split; [|split; [by rewrite Hc|done]].
    intros t s [_ Hs]%lookup_delete_Some. by apply Hreg.
Qed.

Lemma session_op_keeps_registry_witness :
  registry_ok (reg new_world) /\ bound_ok (reg new_world) (chan new_world) /\
  registry_ok (reg (snd (run_session_op true (Initialize "t" (VObj [])) new_world))).
Proof.
  assert (registry_ok (reg new_world)) as Hreg.
  { intros t s Hs. simpl in Hs. by rewrite lookup_empty in Hs. }
  assert (bound_ok (reg new_world) (chan new_world)) as Hbound
    by (intros s Hs; discriminate Hs).
  split; [exact Hreg|]. split; [exact Hbound|].
  exact (proj1 (session_op_keeps_registry true (Initialize "t" (VObj [])) new_world
                  Hreg Hbound)).
Defined.

(** X7. A session outlives its channel: after [initializeSession(token,
    data)] on one channel, with data that is an object (or left out),
    [restoreSession(token)] on any other channel that shares the registry
    succeeds and binds that channel to the very same session object,
    leaving the registry as it is. *)
Theorem restoreSession_shares token data w other :
  is_object (default_arg (VObj []) data) = true ->
  let w1 := snd (initializeSession token data w) in
  exists s,
    session (chan w1) = Some s /\ token = Channel.token s /\
    restoreSession token {| reg := reg w1; chan := other |}
    = (Normal true, {| reg := reg w1; chan := with_session (Some s) other |}).
Proof.
  intros Hobj. rewrite initializeSession_eq by done. cbv zeta.
  cbn [snd reg chan sessions next_oid session with_session].
  eexists. split; [done|]. split; [done|].
  rewrite restoreSession_eq. cbn [reg sessions]. by rewrite lookup_insert_eq.
Qed.

Lemma restoreSession_shares_witness :
  let w1 := snd (initializeSession "t" VUndef new_world) in
  exists s,
    session (chan w1) = Some s /\ state s = VObj [] /\
    restoreSession "t" {| reg := reg w1; chan := cookie_channel |}
    = (Normal true,
       {| reg := reg w1; chan := with_session (Some s) (cookie_channel) |}).
Proof.
  destruct (restoreSession_shares "t" VUndef new_world (cookie_channel) eq_refl)
    as (s & Hs & Ht & Hrestore).
  exists s. split; [exact Hs|]. split; [|exact Hrestore].
  cbv in Hs. by injection Hs as <-.
Defined.

(** X8. [initializeSession(token, data)], with data that is an object (or
    left out), followed by [finalizeSession(token)] on the same channel
    returns [true], leaves the channel unbound and the token unregistered;
    of the registry as it was, only that token and the token of the session
    the channel was bound to before are gone. *)
Theorem initialize_then_finalize token data w :
  is_object (default_arg (VObj []) data) = true ->
  let w1 := snd (initializeSession token data w) in
  exists w2,
    finalizeSession token w1 = (Normal true, w2) /\
    session (chan w2) = None /\
    sessions (reg w2)
    = delete token
        (match session (chan w) with
         | Some old => delete (Channel.token old) (sessions (reg w))
         | None => sessions (reg w)
         end).
Proof.
  intros Hobj.
  rewrite initializeSession_eq by done. cbv zeta. cbn [snd].
  rewrite finalizeSession_eq.
  cbn [reg chan sessions next_oid session with_session].
  rewrite lookup_insert_eq. eexists. split; [done|]. split; [done|].
  cbn [reg sessions Channel.token]. by rewrite delete_insert_eq.
Qed.

Lemma initialize_then_finalize_witness :
  exists w2,
    finalizeSession "c" (snd (initializeSession "c" (VObj []) sample_sessions))
    = (Normal true, w2) /\
    session (chan w2) = None /\
    sessions (reg w2) = delete "c" (delete "a" (sessions (reg sample_sessions))).
Proof.
  exact (initialize_then_finalize "c" (VObj []) sample_sessions eq_refl).
Defined.

End RegistrySpec.

(** ** More on the coordinator *)
Module CoordinatorSpec.
Import JS Protocol Channel Facade ErrorSpec ChannelSpec.
#[local] Open Scope list_scope.

Section Coordinator.
Variable STATUS_CODES : Z -> option string.
Variable jsonParse : string -> value.
Variable getMethod : value -> value -> value -> option procedure.
Variable Chunk_decode : string -> js_error + (Z * string).
Variable error_stack : string -> string.

(** Evaluating a method: binds, traces and calls of [error]. *)
Ltac go :=
  repeat (rewrite ?bind_eq, ?emit_eq, ?(error_eq STATUS_CODES), ?logged_logged,
            ?(error_events_logged STATUS_CODES), ?session_logged;
          unfold read, mret, M_ret, lift, throw; cbn beta iota).

Lemma admitted_cond (s : option Session) (proc : procedure) :
  is_Some s \/ access proc = "public" ->
  negb (bool_decide (is_Some s)) && negb (String.eqb (access proc) "public") = false.
Proof.
  intros [Hs| ->].
  - by rewrite bool_decide_eq_true_2.
  - by rewrite andb_false_r.
Qed.

Lemma refused_cond (s : option Session) (proc : procedure) :
  s = None -> access proc <> "public" ->
  negb (bool_decide (is_Some s)) && negb (String.eqb (access proc) "public") = true.
Proof.
  intros -> Hacc. apply String.eqb_neq in Hacc. rewrite Hacc.
  rewrite bool_decide_eq_false_2; [done|]. by intros [? ?].
Qed.

(** X9. What [rpc] decides before the admission gate.  A method the registry
    does not know is answered with 404; a known method that is not public,
    on a channel without a session, with 403; in both cases the message is
    the status phrase and [enter()] is not called.  Every other call (a
    session is bound, or the method is public) goes to [enter()] and waits
    for it, with a context that holds the session of the channel. *)
Theorem rpc_admission callId iface ver method args w :
  match getMethod iface ver method with
  | None =>
      exists line,
        rpc STATUS_CODES getMethod callId iface ver method args w
        = (Normal None,
           logged w [GetMethod iface ver method; ConsoleError line;
                     Send (error_packet callId (status_phrase (STATUS_CODES 404)) 404)
                       (Some 404)])
  | Some proc =>
      (session (chan w) = None -> access proc <> "public" ->
       exists line,
         rpc STATUS_CODES getMethod callId iface ver method args w
         = (Normal None,
            logged w [GetMethod iface ver method; ConsoleError line;
                      Send (error_packet callId (status_phrase (STATUS_CODES 403)) 403)
                        (Some 403)])) /\
      (is_Some (session (chan w)) \/ access proc = "public" ->
       rpc STATUS_CODES getMethod callId iface ver method args w
       = (Normal (Some (AwaitEnter proc
                          {| ctx_session := session (chan w);
                             ctx_state := VObj []; accountId := VUndef |}
                          callId iface method args)),
          logged w [GetMethod iface ver method; Enter proc]))
  end.
Proof.
  rewrite rpc_eq. destruct (getMethod iface ver method) as [proc|].
  - split.
    + intros Hs Hacc. rewrite refused_cond by done. by eexists.
    + intros Hok. by rewrite admitted_cond.
  - by eexists.
Qed.


(** X11. A procedure that returns an [Error] that has no [httpCode] of its
    own: the gate is released, then the peer is sent the message of that
    error as it is, with the code of the error (500 when it has none) in
    the packet and 200 as the status hint. *)
Theorem rpc_returned_error proc callId iface method e w :
  err_httpCode e = None ->
  exists line,
    rpc_invoked STATUS_CODES proc callId iface method (Fulfilled (ErrorObj e)) w
    = (Normal tt,
       logged w [Leave proc; ConsoleError line;
                 Send (error_packet callId (err_message e) (default 500 (err_code e)))
                   (Some 200)]).
Proof.
  intros Hhttp. unfold rpc_invoked. go. unfold error_events. rewrite Hhttp.
  cbn [or_code mbind option_bind Z.eqb Z.ltb Z.compare Pos.compare
       Pos.compare_cont orb]. by eexists.
Qed.

(** X12. A procedure that throws an [Error] other than a timeout, with a
    [code] and an [httpCode] that are integers or absent: the peer is sent
    a packet whose status hint is the [httpCode] of the error, else its
    [code], else 500, and whose code is the [code] of the error, 500 when
    it has none.  When the hint is below 500 or above 599 the message is the
    message of the error; when the hint is within 500..599 it is the status
    phrase, so an error thrown without codes reaches the peer as the phrase
    for 500 only.  The gate is released after the packet is sent. *)
Theorem rpc_thrown_error proc callId iface method e w :
  err_message e <> "Timeout reached" ->
  exists http message line,
    rpc_invoked STATUS_CODES proc callId iface method (Rejected (ThrownError e)) w
    = (Normal tt,
       logged w
         [ConsoleError line;
          Send (error_packet callId message (default 500 (err_code e))) (Some http);
          Leave proc]) /\
    http = or_code (err_httpCode e) (default 500 (err_code e)) /\
    (http < 500 \/ 599 < http -> message = err_message e) /\
    (500 <= http <= 599 -> message = status_phrase (STATUS_CODES http)) /\
    (err_code e = None -> err_httpCode e = None ->
     http = 500 /\ message = status_phrase (STATUS_CODES 500)).
Proof.
  intros Hmsg. unfold rpc_invoked.
  apply String.eqb_neq in Hmsg. rewrite Hmsg. go.
  unfold error_events. cbn [mbind option_bind].
  set (http := or_code (err_httpCode e) (default 500 (err_code e))).
  assert (or_code None http = http) as -> by done.
  do 3 eexists. split; [reflexivity|]. split; [done|].
  split; [|split].
  - intros Hout.
    assert ((http <? 500) || (599 <? http) = true) as ->; [|done].
    apply orb_true_iff. destruct Hout; [left|right]; lia.
  - intros Hin.
    assert ((http <? 500) || (599 <? http) = false) as ->; [|done].
    apply orb_false_iff. split; lia.
  - intros Hcode Hhttp. unfold http. rewrite Hcode, Hhttp. by cbn.
Qed.

(** X13. A binary frame the chunk codec cannot decode is answered with a 400
    packet addressed to the id 0; when the error of the codec has no
    [httpCode], the packet carries its message.  No stream is touched. *)
Theorem binary_decode_failure data err w :
  Chunk_decode data = inl err ->
  err_httpCode err = None ->
  exists line,
    binary STATUS_CODES Chunk_decode error_stack data w
    = (Normal tt,
       logged w [ConsoleError line;
                 Send (error_packet (VNum 0) (err_message err) 400) (Some 400)]).
Proof.
  intros Hdec Hhttp. unfold binary. rewrite Hdec. go.
  unfold error_events. cbn [mbind option_bind]. rewrite Hhttp. by eexists.
Qed.

(** *** Streams *)

Lemma table_get_set_some k k' r t :
  is_Some (table_get k t) -> is_Some (table_get k (table_set k' r t)).
Proof.
  induction t as [|[k0 r0] t IH]; simpl; [by intros [? ?]|].
  destruct (same_value_zero k0 k') eqn:Hk'; simpl.
  - destruct (same_value_zero k0 k); eauto.
  - destruct (same_value_zero k0 k); eauto.
Qed.

(** What [streamHandler] does with a packet that is not an initialisation
    for a stream that exists: one operation on the handle and a wait, or one
    error packet. *)
Lemma streamHandler_found streamId name size status r w :
  truthy name && is_string name && isSafeInteger size = false ->
  table_get streamId (streams (chan w)) = Some r ->
  (exists op pending,
     streamHandler STATUS_CODES error_stack streamId name size status w
     = (Normal (Some pending),
        with_table w
          (table_set streamId
             {| r_streamId := r_streamId r; r_name := r_name r;
                r_size := r_size r; r_ops := r_ops r ++ [op] |}
             (streams (chan w))))) \/
  streamHandler STATUS_CODES error_stack streamId name size status w
  = (Normal None,
     logged w
       (error_events STATUS_CODES (Some 400) streamId
          (Some (new_Error error_stack "Stream packet structure error")) None
          (chan w))).
Proof.
  intros Hinit Hhas. unfold streamHandler. go. rewrite Hinit, Hhas.
  repeat case_match; go; (by right) || (left; by do 2 eexists).
Qed.


(** X15. Between an [end] packet and the completion of [close()] the
    stream is still in the table: a chunk that arrives in that window is
    pushed into the closing stream, after the [close()], and the peer is
    sent nothing. *)
Theorem chunk_while_closing id name size r frame payload w :
  truthy name && is_string name && isSafeInteger size = false ->
  table_get (VNum id) (streams (chan w)) = Some r ->
  Chunk_decode frame = inr (id, payload) ->
  exists w1 w2,
    streamHandler STATUS_CODES error_stack (VNum id) name size (VStr "end") w
    = (Normal (Some (AwaitClose (VNum id))), w1) /\
    binary STATUS_CODES Chunk_decode error_stack frame w1 = (Normal tt, w2) /\
    table_get (VNum id) (streams (chan w2))
    = Some {| r_streamId := r_streamId r; r_name := r_name r; r_size := r_size r;
              r_ops := r_ops r ++ [Close; Push payload] |} /\
    trace (chan w2) = trace (chan w).
Proof.
  intros Hinit Hhas Hdec.
  assert (same_value_zero (VNum id) (VNum id) = true) as Hid by (simpl; lia).
  do 2 eexists. split; [by apply (streamHandler_end _ _ _ _ _ r)|].
  split.
  { eapply binary_push; [done|]. by apply table_get_set. }
  split; [|done].
  cbn [chan streams with_table with_streams r_streamId r_name r_size r_ops].
  rewrite table_get_set by done. by rewrite <-(assoc_L (++)).
Qed.

(** X16. When [close()] fails after an [end] packet, the entry is never
    removed: the id stays taken, and a packet that initialises it again is
    answered with the 400 packet ["... is already initialized"]. *)
Theorem close_rejected_keeps_entry id name size r t n size' status' w :
  truthy name && is_string name && isSafeInteger size = false ->
  table_get (VNum id) (streams (chan w)) = Some r ->
  n <> EmptyString -> isSafeInteger (VNum size') = true ->
  exists w1 line,
    streamHandler STATUS_CODES error_stack (VNum id) name size (VStr "end") w
    = (Normal (Some (AwaitClose (VNum id))), w1) /\
    streamHandler_settled (VNum id) (Rejected t) w1 = (Throw Rejection, w1) /\
    streamHandler STATUS_CODES error_stack (VNum id) (VStr n) (VNum size') status' w1
    = (Normal None,
       logged w1
         [ConsoleError line;
          Send (error_packet (VNum id)
                  ("Stream " +:+ n +:+ " is already initialized") 400)
            (Some 400)]).
Proof.
  intros Hinit Hhas Hn Hsize.
  assert (same_value_zero (VNum id) (VNum id) = true) as Hid by (simpl; lia).
  do 2 eexists. split; [by apply (streamHandler_end _ _ _ _ _ r)|].
  split; [done|].
  erewrite streamHandler_reopen; [done| |].
  - cbn [truthy is_string]. apply String.eqb_neq in Hn. by rewrite Hn, Hsize.
  - cbn [chan streams with_table with_streams]. by apply table_get_set.
Qed.

Lemma table_get_object id t :
  (forall k, same_value_zero k id = false) -> table_get id t = None.
Proof.
  intros Hid. induction t as [|[k r] t IH]; [done|]. simpl. by rewrite Hid.
Qed.

Lemma table_set_object id r t :
  (forall k, same_value_zero k id = false) -> table_set id r t = t ++ [(id, r)].
Proof.
  intros Hid. induction t as [|[k r'] t IH]; [done|]. simpl.
  by rewrite Hid, IH.
Qed.

(** X17. A stream id that is an object or an array matches no key of the
    table, not even itself in a later packet: every packet that initialises
    such an id adds one more entry, is never answered with "already
    initialized", and the entry cannot be found again. *)
Theorem streamHandler_object_id id name size status w :
  (exists fields, id = VObj fields) \/ (exists items, id = VArr items) ->
  truthy name && is_string name && isSafeInteger size = true ->
  let fresh :=
    {| r_streamId := id; r_name := name; r_size := size; r_ops := [] |} in
  exists w',
    streamHandler STATUS_CODES error_stack id name size status w
    = (Normal None, w') /\
    streams (chan w') = streams (chan w) ++ [(id, fresh)] /\
    trace (chan w') = trace (chan w) /\
    table_get id (streams (chan w')) = None.
Proof.
  intros Hobj Hinit fresh.
  assert (forall k, same_value_zero k id = false) as Hid.
  { intros k. destruct Hobj as [[f ->]|[l ->]]; by destruct k. }
  eexists. split.
  { apply streamHandler_open; [done|]. by apply table_get_object. }
  cbn [chan streams with_table with_streams trace].
  split; [by apply table_set_object|]. split; [done|].
  by apply table_get_object.
Qed.

(** *** Dispatch *)

Lemma logged_nil_eq w : logged w [] = w.
Proof.
  destruct w as [r c]. destruct c. unfold logged, with_trace. simpl.
  by rewrite app_nil_r.
Qed.

(** X18. All that [message] itself can do to the channel, whatever the text
    frame: nothing, or echo ["{}"], or send the 500 packet with the status
    phrase.  It sends at most one packet, never one that carries the text of
    an error of its own, and it does not touch sessions or streams. *)
Theorem message_effects msg w :
  exists r evs,
    message STATUS_CODES jsonParse error_stack msg w = (r, logged w evs) /\
    (evs = [] \/ evs = [Send (VStr "{}") None] \/
     exists line,
       evs = [ConsoleError line;
              Send (error_packet VUndef (status_phrase (STATUS_CODES 500)) 500)
                (Some 500)]).
Proof.
  unfold message. destruct (String.eqb msg "{}").
  { go. do 2 eexists. split; [done|]. right. by left. }
  destruct (negb (truthy (jsonParse msg))).
  { go. do 2 eexists. split; [done|]. right. right. by eexists. }
  go. destruct (deserialize (jsonParse msg)) as [[[t d]|]|e|n].
  - destruct (String.eqb t EmptyString).
    { go. do 2 eexists. split; [done|]. right. right. by eexists. }
    unfold detached_handler.
    destruct (String.eqb t "call"); [|destruct (String.eqb t "stream")];
      eexists _, []; rewrite logged_nil_eq; (split; [reflexivity|by left]).
  - eexists _, []. rewrite logged_nil_eq. split; [reflexivity|by left].
  - eexists _, []. rewrite logged_nil_eq. split; [reflexivity|by left].
  - eexists _, []. rewrite logged_nil_eq. split; [reflexivity|by left].
Qed.

(** X19. What becomes of a frame that decodes.  [message] takes the handler
    off the channel and calls it as a plain function, so the handler runs
    without its channel: a call frame makes [message] itself raise a
    [TypeError]; a stream frame leaves behind the promise of
    [streamHandler], rejected with a [TypeError] that nothing observes;
    callback, event and error packets have no handler and are dropped.  In
    every case nothing is sent, nothing is logged, and neither the channel
    nor the registry changes. *)
Theorem message_detached msg t d w :
  msg <> "{}" ->
  deserialize (jsonParse msg) = Normal (Some (t, d)) ->
  message STATUS_CODES jsonParse error_stack msg w
  = (match d with
     | CallData _ _ _ _ _ => Throw TypeError
     | StreamData _ _ _ _ => Normal (Some TypeError)
     | _ => Normal None
     end, w).
Proof.
  intros Hmsg Hdec. unfold message.
  apply String.eqb_neq in Hmsg. rewrite Hmsg.
  rewrite (CodecSpec.deserialize_truthy _ _ Hdec). cbn [negb]. go. rewrite Hdec.
  pose proof (CodecSpec.deserialize_shape _ _ _ Hdec) as Hshape.
  by destruct d; subst t.
Qed.

(** *** Calls and the session cookie *)

Lemma resumeCookieSession_restored token s w :
  cookie_token (chan w) = Some token -> token <> EmptyString ->
  sessions (reg w) !! token = Some s ->
  resumeCookieSession w
  = (Normal None, {| reg := reg w; chan := with_session (Some s) (chan w) |}).
Proof.
  intros Hcookie Htoken Hs. unfold resumeCookieSession. go. rewrite Hcookie.
  apply String.eqb_neq in Htoken. rewrite Htoken.
  rewrite bind_eq, RegistrySpec.restoreSession_eq, Hs. by go.
Qed.

Lemma resumeCookieSession_unknown token w :
  cookie_token (chan w) = Some token -> token <> EmptyString ->
  sessions (reg w) !! token = None ->
  resumeCookieSession w
  = (Normal (Some (AwaitReadSession token)), logged w [ReadSession token]).
Proof.
  intros Hcookie Htoken Hs. unfold resumeCookieSession. go. rewrite Hcookie.
  apply String.eqb_neq in Htoken. rewrite Htoken.
  rewrite bind_eq, RegistrySpec.restoreSession_eq, Hs. by go.
Qed.

(** X20. A call that arrives with the cookie of a registered session is
    bound to that session before the access check: a method that is not
    public is admitted (its [enter()] is called, with the restored session
    in the context), and nothing is read from the session store. *)
Theorem callHandler_restores_session callId iface method ver args token s proc w :
  truthy callId && truthy iface && truthy method && truthy args = true ->
  cookie_token (chan w) = Some token -> token <> EmptyString ->
  sessions (reg w) !! token = Some s ->
  getMethod iface ver method = Some proc ->
  callHandler STATUS_CODES getMethod error_stack callId iface method ver args w
  = (Normal [AwaitEnter proc
               {| ctx_session := Some s; ctx_state := VObj []; accountId := VUndef |}
               callId iface method args],
     logged {| reg := reg w; chan := with_session (Some s) (chan w) |}
       [GetMethod iface ver method; Enter proc]).
Proof.
  intros Hok Hcookie Htoken Hs Hproc.
  rewrite callHandler_proceeds by done.
  rewrite bind_eq, (resumeCookieSession_restored token s) by done.
  rewrite bind_eq, rpc_eq, Hproc.
  cbn [chan session with_session]. by rewrite admitted_cond by eauto.
Qed.

(** X21. A call that arrives with the cookie of a session the registry does
    not hold, on a channel without a session, for a method that is not
    public: the session store is asked for the session, but the call is
    answered with 403 at once, before the answer of the store.  When the
    store then delivers data that is an object, the channel gets its
    session, too late for this call; when it delivers a truthy value that
    is not an object, building the session raises a [TypeError] and the
    channel stays without a session. *)
Theorem callHandler_cookie_too_late callId iface method ver args token proc w :
  truthy callId && truthy iface && truthy method && truthy args = true ->
  cookie_token (chan w) = Some token -> token <> EmptyString ->
  sessions (reg w) !! token = None -> session (chan w) = None ->
  getMethod iface ver method = Some proc -> access proc <> "public" ->
  exists line w1,
    callHandler STATUS_CODES getMethod error_stack callId iface method ver args w
    = (Normal [AwaitReadSession token], w1) /\
    w1 = logged w [ReadSession token; GetMethod iface ver method;
                   ConsoleError line;
                   Send (error_packet callId (status_phrase (STATUS_CODES 403)) 403)
                     (Some 403)] /\
    (forall data, is_object data = true ->
       exists w2 s,
         resumeCookieSession_read token (Fulfilled data) w1 = (Normal tt, w2) /\
         session (chan w2) = Some s /\ Channel.token s = token /\
         state s = data) /\
    (forall data, truthy data = true -> is_object data = false ->
       resumeCookieSession_read token (Fulfilled data) w1 = (Throw TypeError, w1)).
Proof.
  intros Hok Hcookie Htoken Hs Hnone Hproc Hacc.
  rewrite callHandler_proceeds by done.
  rewrite bind_eq, (resumeCookieSession_unknown token) by done.
  rewrite bind_eq, rpc_eq, Hproc. rewrite session_logged.
  rewrite refused_cond by done. go.
  do 2 eexists. split; [done|]. split; [done|]. split.
  - intros data Hobj. unfold resumeCookieSession_read.
    assert (truthy data = true) as -> by (by destruct data).
    rewrite bind_eq, SessionSpec.initializeSession_eq
      by (by rewrite SessionSpec.default_arg_object).
    rewrite SessionSpec.default_arg_object by done. cbv zeta.
    unfold mret, M_ret. cbv beta iota.
    do 2 eexists. split; [reflexivity|]. split; [reflexivity|]. split; reflexivity.
  - intros data Hdata Hobj. unfold resumeCookieSession_read. rewrite Hdata.
    rewrite bind_eq, SessionSpec.initializeSession_cases. cbv zeta.
    assert (default_arg (VObj []) data = data) as ->
      by (by destruct data).
    rewrite Hobj. rewrite !session_logged, Hnone.
    destruct w as [[ss n] c]. reflexivity.
Qed.

End Coordinator.

Lemma rpc_admission_witness :
  exists line,
    rpc sample_STATUS_CODES sample_registry (VNum 1) (VStr "auth") (VNum 1)
      (VStr "signIn") (VObj []) new_world
    = (Normal None,
       logged new_world
         [GetMethod (VStr "auth") (VNum 1) (VStr "signIn"); ConsoleError line;
          Send (error_packet (VNum 1) "Forbidden" 403) (Some 403)]).
Proof.
  exact (proj1 (rpc_admission sample_STATUS_CODES sample_registry (VNum 1)
                  (VStr "auth") (VNum 1) (VStr "signIn") (VObj []) new_world)
           eq_refl ltac:(discriminate)).
Defined.


Lemma rpc_returned_error_witness :
  exists line,
    rpc_invoked sample_STATUS_CODES sample_procedure (VNum 1) (VStr "auth")
      (VStr "signIn")
      (Fulfilled (ErrorObj (new_Error sample_stack "Unknown account"))) new_world
    = (Normal tt,
       logged new_world
         [Leave sample_procedure; ConsoleError line;
          Send (error_packet (VNum 1) "Unknown account" 500) (Some 200)]).
Proof.
  exact (rpc_returned_error sample_STATUS_CODES sample_procedure (VNum 1)
           (VStr "auth") (VStr "signIn") (new_Error sample_stack "Unknown account")
           new_world eq_refl).
Defined.

Lemma rpc_thrown_error_witness :
  exists line,
    rpc_invoked sample_STATUS_CODES sample_procedure (VNum 1) (VStr "auth")
      (VStr "signIn")
      (Rejected (ThrownError (new_Error sample_stack "database is down"))) new_world
    = (Normal tt,
       logged new_world
         [ConsoleError line;
          Send (error_packet (VNum 1) "Internal Server Error" 500) (Some 500);
          Leave sample_procedure]).
Proof.
  destruct (rpc_thrown_error sample_STATUS_CODES sample_procedure (VNum 1)
              (VStr "auth") (VStr "signIn")
              (new_Error sample_stack "database is down") new_world
              ltac:(discriminate))
    as (http & message & line & Heq & _ & _ & _ & Hnone).
  destruct (Hnone eq_refl eq_refl) as [-> ->]. exists line. exact Heq.
Defined.

Lemma binary_decode_failure_witness :
  exists line,
    binary sample_STATUS_CODES
      (fun _ => inl (new_Error sample_stack "Invalid chunk")) sample_stack
      "junk" new_world
    = (Normal tt,
       logged new_world
         [ConsoleError line;
          Send (error_packet (VNum 0) "Invalid chunk" 400) (Some 400)]).
Proof.
  exact (binary_decode_failure sample_STATUS_CODES
           (fun _ => inl (new_Error sample_stack "Invalid chunk")) sample_stack
           "junk" (new_Error sample_stack "Invalid chunk") new_world
           eq_refl eq_refl).
Defined.


Lemma chunk_while_closing_witness :
  let r := {| r_streamId := VNum 1; r_name := VStr "f"; r_size := VNum 10;
              r_ops := [] |} in
  let w := with_table new_world [(VNum 1, r)] in
  exists w1 w2,
    streamHandler sample_STATUS_CODES sample_stack (VNum 1) VUndef VUndef
      (VStr "end") w
    = (Normal (Some (AwaitClose (VNum 1))), w1) /\
    binary sample_STATUS_CODES sample_Chunk_decode sample_stack "late" w1
    = (Normal tt, w2) /\
    table_get (VNum 1) (streams (chan w2))
    = Some {| r_streamId := VNum 1; r_name := VStr "f"; r_size := VNum 10;
              r_ops := [Close; Push "late"] |} /\
    trace (chan w2) = trace (chan w).
Proof.
  intros r w.
  exact (chunk_while_closing sample_STATUS_CODES sample_Chunk_decode sample_stack
           1 VUndef VUndef r "late" "late" w eq_refl eq_refl eq_refl).
Defined.

Lemma close_rejected_keeps_entry_witness :
  let r := {| r_streamId := VNum 1; r_name := VStr "f"; r_size := VNum 10;
              r_ops := [] |} in
  let w := with_table new_world [(VNum 1, r)] in
  exists w1 line,
    streamHandler sample_STATUS_CODES sample_stack (VNum 1) VUndef VUndef
      (VStr "end") w
    = (Normal (Some (AwaitClose (VNum 1))), w1) /\
    streamHandler_settled (VNum 1) (Rejected ThrownNullish) w1
    = (Throw Rejection, w1) /\
    streamHandler sample_STATUS_CODES sample_stack (VNum 1) (VStr "g") (VNum 5)
      VUndef w1
    = (Normal None,
       logged w1
         [ConsoleError line;
          Send (error_packet (VNum 1) "Stream g is already initialized" 400)
            (Some 400)]).
Proof.
  intros r w.
  exact (close_rejected_keeps_entry sample_STATUS_CODES sample_stack 1 VUndef
           VUndef r ThrownNullish "g" 5 VUndef w eq_refl eq_refl
           ltac:(discriminate) eq_refl).
Defined.

Lemma streamHandler_object_id_witness :
  exists w',
    streamHandler sample_STATUS_CODES sample_stack (VObj []) (VStr "f") (VNum 10)
      VUndef new_world
    = (Normal None, w') /\
    table_get (VObj []) (streams (chan w')) = None.
Proof.
  destruct (streamHandler_object_id sample_STATUS_CODES sample_stack (VObj [])
              (VStr "f") (VNum 10) VUndef new_world
              (or_introl (ex_intro _ [] eq_refl)) eq_refl)
    as (w' & Heq & _ & _ & Hget).
  exists w'. split; [exact Heq|exact Hget].
Defined.

Lemma message_detached_witness :
  message sample_STATUS_CODES sample_jsonParse_call sample_stack "packet"
    new_world
  = (Throw TypeError, new_world).
Proof.
  exact (message_detached sample_STATUS_CODES sample_jsonParse_call sample_stack
           "packet" "call"
           (CallData (VNum 1) (VStr "auth") (VStr "signIn") VUndef credentials)
           new_world ltac:(discriminate) eq_refl).
Defined.

Lemma sample_cookie_known_lookup :
  sessions (reg sample_cookie_known) !! "a"
  = Some {| oid := 0; token := "a"; state := VObj [] |}.
Proof. apply lookup_insert_eq. Qed.

Lemma callHandler_restores_session_witness :
  let s := {| oid := 0; token := "a"; state := VObj [] |} in
  callHandler sample_STATUS_CODES sample_registry sample_stack
    (VNum 1) (VStr "auth") (VStr "signIn") (VNum 1) (VObj []) sample_cookie_known
  = (Normal [AwaitEnter sample_procedure
               {| ctx_session := Some s; ctx_state := VObj []; accountId := VUndef |}
               (VNum 1) (VStr "auth") (VStr "signIn") (VObj [])],
     logged {| reg := reg sample_cookie_known;
               chan := with_session (Some s) cookie_channel |}
       [GetMethod (VStr "auth") (VNum 1) (VStr "signIn"); Enter sample_procedure]).
Proof.
  intros s.
  exact (callHandler_restores_session sample_STATUS_CODES sample_registry
           sample_stack (VNum 1) (VStr "auth") (VStr "signIn") (VNum 1) (VObj [])
           "a" s sample_procedure sample_cookie_known eq_refl eq_refl
           ltac:(discriminate) sample_cookie_known_lookup eq_refl).
Defined.

Lemma callHandler_cookie_too_late_witness :
  exists line w1 w2 s,
    callHandler sample_STATUS_CODES sample_registry sample_stack
      (VNum 1) (VStr "auth") (VStr "signIn") (VNum 1) (VObj [])
      sample_cookie_unknown
    = (Normal [AwaitReadSession "a"], w1) /\
    w1 = logged sample_cookie_unknown
           [ReadSession "a"; GetMethod (VStr "auth") (VNum 1) (VStr "signIn");
            ConsoleError line;
            Send (error_packet (VNum 1) "Forbidden" 403) (Some 403)] /\
    resumeCookieSession_read "a" (Fulfilled (VObj [])) w1 = (Normal tt, w2) /\
    session (chan w2) = Some s /\ Channel.token s = "a" /\ state s = VObj [] /\
    resumeCookieSession_read "a" (Fulfilled (VNum 1)) w1 = (Throw TypeError, w1).
Proof.
  destruct (callHandler_cookie_too_late sample_STATUS_CODES sample_registry
              sample_stack (VNum 1) (VStr "auth") (VStr "signIn") (VNum 1) (VObj [])
              "a" sample_procedure sample_cookie_unknown eq_refl eq_refl
              ltac:(discriminate) (lookup_empty _) eq_refl eq_refl
              ltac:(discriminate))
    as (line & w1 & Hcall & Hw1 & Hobj & Hprim).
  destruct (Hobj (VObj []) eq_refl) as (w2 & s & Hread & Hs & Ht & Hst).
  exists line, w1, w2, s.
  split; [exact Hcall|]. split; [exact Hw1|]. split; [exact Hread|].
  split; [exact Hs|]. split; [exact Ht|]. split; [exact Hst|].
  exact (Hprim (VNum 1) eq_refl eq_refl).
Defined.

End CoordinatorSpec.

(** ** Server events, outbound streams, teardown *)
Module FacadeSpec.
Import JS Protocol Channel Facade JSFacts ProtocolSpec ErrorSpec ChannelSpec.
#[local] Open Scope list_scope.

Lemma sendEvent_eq name args w :
  sendEvent true name args w
  = (Normal (inr tt),
     logged {| reg := reg w; chan := with_eventId (eventId (chan w) - 1) (chan w) |}
       [Send (event_packet (eventId (chan w) - 1) name args) None]).
Proof.
  unfold sendEvent. cbn [negb]. rewrite !bind_eq. unfold set_chan, read.
  cbn beta iota. rewrite bind_eq. unfold lift.
  rewrite serialize_event by done. reflexivity.
Qed.

Lemma sendEvent_fields name args w :
  let w' := snd (sendEvent true name args w) in
  eventId (chan w') = eventId (chan w) - 1 /\
  trace (chan w')
  = trace (chan w) ++ [Send (event_packet (eventId (chan w) - 1) name args) None] /\
  session (chan w') = session (chan w) /\ streams (chan w') = streams (chan w) /\
  streamId (chan w') = streamId (chan w) /\ reg w' = reg w.
Proof. by rewrite sendEvent_eq. Qed.

(** X22. Events sent over a connection carry ids that count down by one from
    the counter of the channel: the first of a new channel goes out under
    -1, the second under -2, and so on; each call sends exactly one packet
    and changes nothing else but the counter. *)
Theorem sendEvents_count_down events w :
  exists w',
    sendEvents true events w = (Normal (inr tt), w') /\
    trace (chan w')
    = trace (chan w)
        ++ imap (fun i e =>
                   Send (event_packet (eventId (chan w) - Z.of_nat (S i))
                           (fst e) (snd e)) None) events /\
    eventId (chan w') = eventId (chan w) - Z.of_nat (List.length events) /\
    session (chan w') = session (chan w) /\ streams (chan w') = streams (chan w) /\
    streamId (chan w') = streamId (chan w) /\ reg w' = reg w.
Proof.
  revert w. induction events as [|[name args] events IH]; intros w.
  - exists w. cbn. rewrite app_nil_r. repeat split; try done. lia.
  - cbn [sendEvents]. rewrite bind_eq.
    pose proof (sendEvent_fields name args w) as Hf. cbv zeta in Hf.
    destruct (sendEvent true name args w) as [r w1] eqn:Hsend.
    rewrite sendEvent_eq in Hsend. injection Hsend as <- _.
    cbn [snd] in Hf. destruct Hf as (Hid & Htr & Hs & Hst & Hsid & Hreg).
    destruct (IH w1) as (w' & -> & Htr' & Hid' & Hs' & Hst' & Hsid' & Hreg').
    exists w'. split; [done|].
    rewrite Htr', Hid', Hs', Hst', Hsid', Hreg', Htr, Hid, Hs, Hst, Hsid, Hreg.
    split.
    { rewrite <-(assoc_L (++)). f_equal. cbn [imap app fst snd]. f_equal.
      symmetry. apply imap_ext. intros i e _. cbn [compose].
      replace (eventId (chan w) - 1 - Z.of_nat (S i))
        with (eventId (chan w) - Z.of_nat (S (S i))) by lia.
      reflexivity. }
    split; [cbn [List.length]; lia|done].
Qed.

(** X23. An event sent under a name [iface/eventName] (one slash) reaches
    the peer as a packet that decodes to that interface, that event name,
    the arguments, and the id the channel has just counted down to. *)
Theorem sendEvent_roundtrip i n args w :
  no_char "/" i = true -> no_char "/" n = true ->
  exists packet w',
    sendEvent true (i +:+ String "/" n) args w = (Normal (inr tt), w') /\
    trace (chan w') = trace (chan w) ++ [Send packet None] /\
    deserialize packet
    = Normal (Some ("event",
        EventData (VNum (eventId (chan w) - 1)) (VStr i) (VStr n) args)).
Proof.
  intros Hi Hn. rewrite sendEvent_eq. do 2 eexists.
  split; [done|]. split; [done|].
  unfold event_packet. rewrite (split_two "/" i n) by done.
  cbn [element lookup list_lookup]. unfold event_key. cbn [to_string].
  change ("/" +:+ n) with (String "/" n).
  rewrite deserialize_event. by rewrite (split_two "/" i n).
Qed.

Lemma split_three sep a b rest :
  no_char sep a = true -> no_char sep b = true ->
  exists tail,
    split sep (a +:+ String sep (b +:+ String sep rest)) = a :: b :: tail.
Proof.
  intros Ha Hb.
  destruct (split_nonempty sep rest) as (h & t & Hrest).
  exists (h :: t).
  rewrite (split_app sep a _ EmptyString (b :: h :: t)); [by rewrite app_empty_r|done|].
  rewrite split_sep. f_equal.
  rewrite (split_app sep b _ EmptyString (h :: t)); [by rewrite app_empty_r|done|].
  by rewrite split_sep, Hrest.
Qed.

(** X24. [sendEvent] keeps the first two segments of the name only: for a
    name [a/b/rest] the packet sent, and all that the call does, is the same
    as for the name [a/b]. *)
Theorem sendEvent_drops_segments a b rest args w :
  no_char "/" a = true -> no_char "/" b = true ->
  sendEvent true (a +:+ String "/" (b +:+ String "/" rest)) args w
  = sendEvent true (a +:+ String "/" b) args w.
Proof.
  intros Ha Hb. rewrite !sendEvent_eq. unfold event_packet.
  destruct (split_three "/" a b rest Ha Hb) as [tail ->].
  by rewrite (split_two "/" a b).
Qed.

(** X25. The calls of the facade that raise do so before they touch
    anything: when [sendEvent], [createStream] or [getStream] ends with an
    error (no connection, no name, no size, no such stream), the channel
    and the registry are exactly as before: no id is used up and nothing
    is sent. *)
Theorem facade_errors_change_nothing connection w :
  (forall name args e w',
     sendEvent connection name args w = (Normal (inl e), w') -> w' = w) /\
  (forall name size e w',
     createStream connection name size w = (Normal (inl e), w') -> w' = w) /\
  (forall streamId r w',
     getStream connection streamId w = (r, w') -> w' = w).
Proof.
  split; [|split].
  - intros name args e w'. destruct connection.
    + rewrite sendEvent_eq. discriminate.
    + unfold sendEvent. cbn. by intros [= _ <-].
  - intros name size e w'. unfold createStream.
    destruct connection; [|by cbn; intros [= _ <-]]. cbn [negb].
    destruct (truthy name); [|by cbn; intros [= _ <-]]. cbn [negb].
    destruct (truthy size); [|by cbn; intros [= _ <-]]. cbn [negb].
    discriminate.
  - intros streamId r w'. unfold getStream.
    destruct connection; [|by cbn; intros [= _ <-]]. cbn [negb].
    rewrite bind_eq. unfold read. cbn beta iota.
    destruct (table_get streamId (streams (chan w))); by intros [= _ <-].
Qed.

Lemma createStream_eq name size w :
  createStream true name size w
  = if truthy name
    then if truthy size
         then (Normal (inr {| w_streamId := streamId (chan w) - 1;
                              w_name := name; w_size := size |}),
               {| reg := reg w;
                  chan := with_streamId (streamId (chan w) - 1) (chan w) |})
         else (Normal (inl "Stream size is not provided"), w)
    else (Normal (inl "Stream name is not provided"), w).
Proof.
  unfold createStream. cbn [negb].
  destruct (truthy name); [|done]. by destruct (truthy size).
Qed.

(** X26. The handles [createStream] gives out over a connection carry ids
    that count down by one from the counter of the channel, whatever
    requests fail in between: a request that is refused uses up no id, and
    no two handles share an id.  On a new channel the ids are -1, -2, ... *)
Theorem createStreams_count_down requests w :
  exists results w',
    createStreams true requests w = (Normal results, w') /\
    List.length results = List.length requests /\
    handle_ids results
    = countdown (streamId (chan w)) (List.length (handle_ids results)) /\
    streamId (chan w')
    = streamId (chan w) - Z.of_nat (List.length (handle_ids results)) /\
    streams (chan w') = streams (chan w) /\ trace (chan w') = trace (chan w).
Proof.
  revert w. induction requests as [|[name size] requests IH]; intros w.
  - exists [], w. cbn. repeat split; try done. lia.
  - cbn [createStreams]. rewrite bind_eq, createStream_eq.
    destruct (truthy name); [destruct (truthy size)|].
    + destruct (IH {| reg := reg w;
                      chan := with_streamId (streamId (chan w) - 1) (chan w) |})
        as (results & w' & Hrun & Hlen & Hids & Hsid & Hst & Htr).
      rewrite bind_eq, Hrun. do 2 eexists. split; [done|].
      cbn [handle_ids omap list_omap List.length] in *.
      fold (handle_ids results) in *.
      split; [by rewrite Hlen|]. rewrite Hsid, Hst, Htr.
      cbn [chan streamId with_streamId streams trace] in *.
      split; [|split; [lia|done]].
      unfold countdown in *. cbn [seq List.map]. f_equal.
      rewrite Hids at 1. rewrite <-seq_shift, List.map_map.
      apply List.map_ext. intros i. lia.
    + destruct (IH w) as (results & w' & Hrun & Hlen & Hids & Hsid & Hst & Htr).
      rewrite bind_eq, Hrun. do 2 eexists. split; [done|].
      cbn [handle_ids omap list_omap List.length] in *.
      fold (handle_ids results) in *.
      split; [by rewrite Hlen|]. by rewrite Hsid, Hst, Htr.
    + destruct (IH w) as (results & w' & Hrun & Hlen & Hids & Hsid & Hst & Htr).
      rewrite bind_eq, Hrun. do 2 eexists. split; [done|].
      cbn [handle_ids omap list_omap List.length] in *.
      fold (handle_ids results) in *.
      split; [by rewrite Hlen|]. by rewrite Hsid, Hst, Htr.
Qed.

(** X27. [getStream] follows the life of an inbound stream: once a stream
    packet has registered the id, [getStream] returns that handle; once an
    [end] packet has been handled and [close()] has completed, [getStream]
    raises ["Stream <id> is not initialized"]. *)
Theorem getStream_lifecycle STATUS_CODES error_stack id n size status w :
  n <> EmptyString -> isSafeInteger (VNum size) = true ->
  table_get (VNum id) (streams (chan w)) = None ->
  let fresh :=
    {| r_streamId := VNum id; r_name := VStr n; r_size := VNum size;
       r_ops := [] |} in
  exists w1 w2 w3,
    streamHandler STATUS_CODES error_stack (VNum id) (VStr n) (VNum size) status w
    = (Normal None, w1) /\
    getStream true (VNum id) w1 = (Normal (inr fresh), w1) /\
    streamHandler STATUS_CODES error_stack (VNum id) VUndef VUndef (VStr "end") w1
    = (Normal (Some (AwaitClose (VNum id))), w2) /\
    streamHandler_settled (VNum id) (Fulfilled tt) w2 = (Normal tt, w3) /\
    getStream true (VNum id) w3
    = (Normal (inl ("Stream " +:+ pretty id +:+ " is not initialized")), w3).
Proof.
  intros Hn Hsize Hfree fresh.
  assert (same_value_zero (VNum id) (VNum id) = true) as Hid by (simpl; lia).
  assert (truthy (VStr n) && is_string (VStr n) && isSafeInteger (VNum size) = true)
    as Hinit.
  { cbn [truthy is_string]. apply String.eqb_neq in Hn. by rewrite Hn, Hsize. }
  do 3 eexists.
  split; [by apply streamHandler_open|].
  split.
  { unfold getStream. cbn [negb]. rewrite bind_eq. unfold read. cbn beta iota.
    cbn [chan streams with_table with_streams]. by rewrite table_get_set. }
  split.
  { apply (streamHandler_end _ _ _ _ _ fresh); [done|].
    cbn [chan streams with_table with_streams]. by apply table_get_set. }
  split; [reflexivity|].
  unfold getStream. cbn [negb]. rewrite bind_eq. unfold read. cbn beta iota.
  cbn [chan streams with_table with_streams]. by rewrite table_get_delete.
Qed.

(** X28. [destroy] tells the peer nothing and needs no connection: it sends
    no packet and uses up no id.  It takes the token of the bound session
    out of the registry, so that no channel can restore the session by that
    token any more, but leaves the channel itself as it was, still bound to
    the session; a second [destroy] changes nothing. *)
Theorem destroy_evicts connection s w :
  session (chan w) = Some s ->
  exists w',
    destroy connection w = (Normal tt, w') /\
    chan w' = chan w /\
    sessions (reg w') = delete (token s) (sessions (reg w)) /\
    (forall other,
       restoreSession (token s) {| reg := reg w'; chan := other |}
       = (Normal false, {| reg := reg w'; chan := other |})) /\
    destroy connection w' = (Normal tt, w').
Proof.
  intros Hs. rewrite RegistrySpec.destroy_eq, Hs. eexists.
  split; [done|]. cbn [reg chan sessions next_oid].
  split; [done|]. split; [done|]. split.
  - intros other. rewrite RegistrySpec.restoreSession_eq.
    cbn [reg sessions]. by rewrite lookup_delete_eq.
  - rewrite RegistrySpec.destroy_eq. cbn [reg chan sessions next_oid].
    rewrite Hs. by rewrite delete_delete_eq.
Qed.

Lemma sendEvent_roundtrip_witness :
  exists packet w',
    sendEvent true "account/created" VNull new_world = (Normal (inr tt), w') /\
    trace (chan w') = [Send packet None] /\
    deserialize packet
    = Normal (Some ("event",
        EventData (VNum (-1)) (VStr "account") (VStr "created") VNull)).
Proof.
  exact (sendEvent_roundtrip "account" "created" VNull new_world eq_refl eq_refl).
Defined.

Lemma sendEvent_drops_segments_witness :
  sendEvent true "chat/message/room1" VNull new_world
  = sendEvent true "chat/message" VNull new_world.
Proof.
  exact (sendEvent_drops_segments "chat" "message" "room1" VNull new_world
           eq_refl eq_refl).
Defined.

Lemma facade_errors_change_nothing_witness :
  snd (createStream true VUndef (VNum 10) new_world) = new_world.
Proof.
  exact (proj1 (proj2 (facade_errors_change_nothing true new_world))
           VUndef (VNum 10) "Stream name is not provided" _ eq_refl).
Defined.

Lemma getStream_lifecycle_witness :
  exists w1 fresh,
    streamHandler sample_STATUS_CODES sample_stack (VNum 1) (VStr "f") (VNum 10)
      VUndef new_world
    = (Normal None, w1) /\
    getStream true (VNum 1) w1 = (Normal (inr fresh), w1).
Proof.
  destruct (getStream_lifecycle sample_STATUS_CODES sample_stack 1 "f" 10 VUndef
              new_world ltac:(discriminate) eq_refl eq_refl)
    as (w1 & w2 & w3 & H1 & H2 & _).
  exists w1. eexists. split; [exact H1|exact H2].
Defined.

Lemma destroy_evicts_witness :
  exists w',
    destroy false sample_sessions = (Normal tt, w') /\
    chan w' = chan sample_sessions /\
    sessions (reg w') = delete "a" (sessions (reg sample_sessions)).
Proof.
  destruct (destroy_evicts false {| oid := 0; token := "a"; state := VObj [] |}
              sample_sessions eq_refl) as (w' & H1 & H2 & H3 & _).
  exists w'. split; [exact H1|]. split; [exact H2|exact H3].
Defined.

End FacadeSpec.
